(** * Token-based authentication (Practical 6): register, login, protected balance

    A shallow embedding of the three Hono handlers shown in
    [Practical6-Token_Based_Authentication/README.md] (lines 134-241) and of
    the Prisma schema they run against (lines 65-80).

    The handlers are [async] functions that thread a database, may throw, and
    call into the Bun runtime ([Bun.password]) and into [hono/jwt].  They are
    embedded in a small state-and-exception monad; the runtime primitives are
    an interface ([Runtime]); the database is a pair of tables. *)

From Stdlib Require Import String Ascii List ZArith Bool Lia.
Import ListNotations.
Local Open Scope string_scope.
Local Open Scope Z_scope.

(** ** JavaScript values read from a request body *)

(** What [body.email] and [body.password] can evaluate to once the body has
    been parsed. *)
Inductive JsValue : Type :=
| JUndefined
| JNull
| JString (s : string)
| JNumber (n : Z).

(** What [await c.req.json()] can return: [null], or a value whose [email]
    and [password] properties are read later (for a JSON number, string or
    array both properties are [undefined]). *)
Inductive JsonBody : Type :=
| BodyNull
| BodyObject (email password : JsValue).

Record Request : Type := {
  req_body : option JsonBody;          (* [None]: the body is not valid JSON *)
  req_authorization : option string    (* the [Authorization] header *)
}.

(** ** Exceptions and responses *)

Inductive Exn : Type :=
| SyntaxError
| TypeError
| PrismaClientKnownRequestError (code : string)
| PrismaClientValidationError
| HTTPException (status : Z) (message : string)
| RuntimeError (name : string).

(** One row of [select: { Account: { select: { balance: true, id: true } } }]. *)
Record AccountView : Type := {
  view_balance : Z;
  view_id : string
}.

Inductive Body : Type :=
| MessageBody (message : string)
| TokenBody (message token : string)
| DataBody (data : option (list AccountView)).

Record Response : Type := {
  status : Z;
  body : Body
}.

(** [c.json(obj)] with no status argument answers 200. *)
Definition c_json (b : Body) : Response := {| status := 200; body := b |}.

(** ** The database (Prisma schema, README lines 65-80)

    The handlers call the hash column [hashedPassword]. *)

Record User : Type := {
  id : string;
  email : string;
  hashedPassword : string
}.

Record Account : Type := {
  account_id : string;
  userId : string;
  balance : Z
}.

Record Store : Type := {
  users : list User;
  accounts : list Account
}.

Definition empty_store : Store := {| users := []; accounts := [] |}.

(** ** Observable events

    A ghost trace of the calls a handler makes, oldest first. *)
Inductive Event : Type :=
| EvHash (password : JsValue)
| EvVerify (password : JsValue) (hash : string)
| EvCreate (email : JsValue) (hash : string)
| EvFindByEmail (email : JsValue)
| EvFindById (uid : string)
| EvSign (sub : string) (exp : Z)
| EvHandler (route : string).

Record World : Type := {
  db : Store;
  trace : list Event
}.

(** ** The handler monad: state plus exceptions *)

Definition M (A : Type) : Type := World -> (Exn + A) * World.

Definition ret {A} (a : A) : M A := fun w => (inr a, w).

Definition throw {A} (e : Exn) : M A := fun w => (inl e, w).

Definition bind {A B} (m : M A) (k : A -> M B) : M B :=
  fun w =>
    match m w with
    | (inr a, w') => k a w'
    | (inl e, w') => (inl e, w')
    end.

(** [try { m } catch (e) { h e }] *)
Definition try_catch {A} (m : M A) (h : Exn -> M A) : M A :=
  fun w =>
    match m w with
    | (inr a, w') => (inr a, w')
    | (inl e, w') => h e w'
    end.

Definition emit (ev : Event) : M unit :=
  fun w => (inr tt, {| db := db w; trace := trace w ++ [ev] |}).

Definition get_db : M Store := fun w => (inr (db w), w).

Definition put_db (s : Store) : M unit :=
  fun w => (inr tt, {| db := s; trace := trace w |}).

(** The result of a call into the runtime: a value or a thrown error. *)
Definition lift {A} (r : string + A) : M A :=
  fun w =>
    match r with
    | inr a => (inr a, w)
    | inl name => (inl (RuntimeError name), w)
    end.

Declare Scope handler_scope.
Delimit Scope handler_scope with handler.
Notation "x <- m ;; k" := (bind m (fun x => k))
  (at level 61, m at next level, right associativity) : handler_scope.
Notation "m ;;; k" := (bind m (fun _ => k))
  (at level 61, right associativity) : handler_scope.
Local Open Scope handler_scope.

(** ** Runtime primitives the handlers call

    [Bun.password.hash(p, {algorithm: "bcrypt", cost: 4})],
    [Bun.password.verify(p, h, "bcrypt")] and [sign(payload, secret)] of
    [hono/jwt].  Each returns a value ([inr]) or throws an error of the
    runtime, given by its name ([inl]).  The salt that [hash] draws is made
    an explicit argument. *)
Record Claims : Type := {
  sub : string;
  exp : Z
}.

Class Runtime : Type := {
  bun_password_hash : JsValue -> string -> string + string;
  bun_password_verify : JsValue -> string -> string + bool;
  hono_sign : Claims -> string -> string + string
}.

(** What a request draws from its surroundings: the clock ([Date.now()], in
    milliseconds), the salt, and the two identifiers [uuid()] generates. *)
Record Env : Type := {
  date_now : Z;
  salt : string;
  user_uuid : string;
  account_uuid : string
}.

(** ** Prisma calls *)

Definition find_user_by_email (s : Store) (e : string) : option User :=
  find (fun u => String.eqb (email u) e) (users s).

Definition find_user_by_id (s : Store) (i : string) : option User :=
  find (fun u => String.eqb (id u) i) (users s).

Definition accounts_of (s : Store) (uid : string) : list AccountView :=
  map (fun a => {| view_balance := balance a; view_id := account_id a |})
      (filter (fun a => String.eqb (userId a) uid) (accounts s)).

(** The rows a [create] writes; [id] is [@default(uuid())] in both tables. *)
Definition created_user (env : Env) (em h : string) : User :=
  {| id := user_uuid env; email := em; hashedPassword := h |}.

Definition created_account (env : Env) : Account :=
  {| account_id := account_uuid env; userId := user_uuid env; balance := 0 |}.

(** [prisma.user.create({ data: { email, hashedPassword, Account: { create:
    { balance: 0 } } } })].  [email] is [@unique]: a second row with the same
    email is refused with code P2002 and nothing is written.  A value that is
    not a string does not fit the [String] column. *)
Definition prisma_user_create (env : Env) (em : JsValue) (h : string) : M User :=
  emit (EvCreate em h) ;;;
  match em with
  | JString e =>
      s <- get_db ;;
      match find_user_by_email s e with
      | Some _ => throw (PrismaClientKnownRequestError "P2002")
      | None =>
          let u := created_user env e h in
          put_db {| users := users s ++ [u];
                    accounts := accounts s ++ [created_account env] |} ;;;
          ret u
      end
  | _ => throw PrismaClientValidationError
  end.

(** [prisma.user.findUnique({ where: { email }, select: { id: true,
    hashedPassword: true } })] *)
Definition prisma_user_findUnique_email (em : JsValue) : M (option User) :=
  emit (EvFindByEmail em) ;;;
  match em with
  | JString e => s <- get_db ;; ret (find_user_by_email s e)
  | _ => throw PrismaClientValidationError
  end.

(** [prisma.user.findUnique({ where: { id }, select: { Account: { select:
    { balance: true, id: true } } } })] *)
Definition prisma_user_findUnique_id (uid : string) : M (option (list AccountView)) :=
  emit (EvFindById uid) ;;;
  s <- get_db ;;
  ret (match find_user_by_id s uid with
       | Some u => Some (accounts_of s (id u))
       | None => None
       end).

(** ** Reading the request *)

(** [await c.req.json()] *)
Definition c_req_json (req : Request) : M JsonBody :=
  match req_body req with
  | Some b => ret b
  | None => throw SyntaxError
  end.

(** [body.email]; reading a property of [null] throws. *)
Definition body_email (b : JsonBody) : M JsValue :=
  match b with
  | BodyObject e _ => ret e
  | BodyNull => throw TypeError
  end.

(** [body.password] *)
Definition body_password (b : JsonBody) : M JsValue :=
  match b with
  | BodyObject _ p => ret p
  | BodyNull => throw TypeError
  end.

Section Handlers.

Context {rt : Runtime}.
Variable env : Env.

Definition password_hash (p : JsValue) : M string :=
  emit (EvHash p) ;;; lift (bun_password_hash p (salt env)).

Definition password_verify (p : JsValue) (h : string) : M bool :=
  emit (EvVerify p h) ;;; lift (bun_password_verify p h).

Definition sign (payload : Claims) (secret : string) : M string :=
  emit (EvSign (sub payload) (exp payload)) ;;; lift (hono_sign payload secret).

(** *** [app.post("/register", ...)] (README lines 134-167)

    The template literal of the success answer is printed with its [$]
    escaped (line 157), so nothing is interpolated: the message is that text
    as it stands, whatever the email. *)

Definition register_try (req : Request) : M Response :=
  body <- c_req_json req ;;
  pw <- body_password body ;;
  bcryptHash <- password_hash pw ;;
  em <- body_email body ;;
  user <- prisma_user_create env em bcryptHash ;;
  ret (c_json (MessageBody "${user.email} created successfully")).

Definition register_catch (e : Exn) : M Response :=
  match e with
  | PrismaClientKnownRequestError code =>
      if String.eqb code "P2002"
      then ret (c_json (MessageBody "Email already exists"))
      else throw e
  | _ => throw e
  end.

Definition register (req : Request) : M Response :=
  try_catch (register_try req) register_catch.

(** *** [app.post("/login", ...)] (README lines 173-213) *)

Definition secret : string := "mySecretKey".

(** [{ sub: user.id, exp: Math.floor(Date.now() / 1000) + 60 * 60 }] *)
Definition login_payload (user : User) : Claims :=
  {| sub := id user; exp := date_now env / 1000 + 60 * 60 |}.

Definition login_try (req : Request) : M Response :=
  body <- c_req_json req ;;
  em <- body_email body ;;
  user <- prisma_user_findUnique_email em ;;
  match user with
  | None => ret (c_json (MessageBody "User not found"))
  | Some u =>
      pw <- body_password body ;;
      matched <- password_verify pw (hashedPassword u) ;;
      if (matched : bool) then
        token <- sign (login_payload u) secret ;;
        ret (c_json (TokenBody "Login successful" token))
      else throw (HTTPException 401 "Invalid credentials")
  end.

Definition login (req : Request) : M Response :=
  try_catch (login_try req)
            (fun _ => throw (HTTPException 401 "Invalid credentials")).

(** *** [app.get("/protected/account/balance", ...)] (README lines 228-241)

    [jwtPayload] is what [c.get('jwtPayload')] returns. *)
Definition account_balance (jwtPayload : option Claims) : M Response :=
  emit (EvHandler "/protected/account/balance") ;;;
  match jwtPayload with
  | None => throw (HTTPException 401 "Unauthorized")
  | Some payload =>
      user <- prisma_user_findUnique_id (sub payload) ;;
      ret (c_json (DataBody user))
  end.

End Handlers.

(** ** From a handler's outcome to the HTTP response *)

(** Modelled from the spec: the framework's answer when a handler throws is
    not part of the handlers' text.  Following sections 6 and 7, an
    [HTTPException] is answered with its own status and message, and any
    other exception is an internal error: 500 with a generic message. *)
Definition respond (out : Exn + Response) : Response :=
  match out with
  | inr r => r
  | inl (HTTPException st msg) => {| status := st; body := MessageBody msg |}
  | inl _ => {| status := 500; body := MessageBody "Internal Server Error" |}
  end.

Definition invalid_credentials : Response :=
  {| status := 401; body := MessageBody "Invalid credentials" |}.

Definition unauthorized : Response :=
  {| status := 401; body := MessageBody "Unauthorized" |}.

Definition run {A} (m : M A) (w : World) : Exn + A := fst (m w).

Definition world_after {A} (m : M A) (w : World) : World := snd (m w).

(** ** Tokens: issuer, verifier and authorization gate

    [sign] and the [jwt] middleware come from [hono/jwt]; the repository only
    calls them.  They are modelled from sections 4.2 to 4.4 and 6 of the
    specification, over the encoding and signing primitives they rest on. *)

Inductive TokenError : Type :=
| Malformed
| SignatureInvalid
| Expired.

Class TokenPrimitives : Type := {
  encoded_header : string;
  header_valid : string -> bool;
  encode_claims : Claims -> string;
  decode_claims : string -> option Claims;
  signature : string -> string -> string      (* key, signing input *)
}.

(** Splitting at a delimiter, as [String.prototype.split]: a string with [n]
    delimiters has [n + 1] parts. *)
Fixpoint split_on (d : ascii) (s : string) : list string :=
  match s with
  | EmptyString => [EmptyString]
  | String c s' =>
      if Ascii.eqb c d then EmptyString :: split_on d s'
      else match split_on d s' with
           | p :: ps => String c p :: ps
           | [] => [String c EmptyString]
           end
  end.

Fixpoint dot_free (s : string) : bool :=
  match s with
  | EmptyString => true
  | String c s' => negb (Ascii.eqb c ".") && dot_free s'
  end.

Fixpoint strip_prefix (p s : string) : option string :=
  match p, s with
  | EmptyString, _ => Some s
  | String a p', String b s' => if Ascii.eqb a b then strip_prefix p' s' else None
  | String _ _, EmptyString => None
  end.

Section Tokens.

Context {tp : TokenPrimitives}.

(** Modelled from the spec: section 4.2, TokenIssuer.  The token is
    encoded-header, encoded-claims and signature joined by ".", the signature
    covering header and claims. *)
Definition sign_claims (key : string) (c : Claims) : string :=
  let signing_input := encoded_header ++ "." ++ encode_claims c in
  signing_input ++ "." ++ signature key signing_input.


(** Modelled from the spec: section 4.3, TokenVerifier.  Three-part structure
    and valid encodings ([Malformed]), then the signature over header and
    claims ([SignatureInvalid]), then [exp] against the current time
    ([Expired] if the current time is at or past [exp]). *)
Definition verify_token (key : string) (now : Z) (token : string)
  : TokenError + Claims :=
  match split_on "." token with
  | [h; c; s] =>
      match header_valid h, decode_claims c with
      | true, Some cl =>
          if String.eqb (signature key (h ++ "." ++ c)) s then
            if exp cl <=? now then inl Expired else inr cl
          else inl SignatureInvalid
      | _, _ => inl Malformed
      end
  | _ => inl Malformed
  end.

(** Modelled from the spec: section 4.4, AuthorizationGate.  The header must
    read [Bearer <token>]. *)
Definition extract_bearer (authorization : option string) : option string :=
  match authorization with
  | Some h => strip_prefix "Bearer " h
  | None => None
  end.

Inductive GateState : Type :=
| Unauthenticated
| TokenExtracted (token : string)
| Authorized (payload : Claims)
| Rejected.

(** One transition of the gate; [Authorized] and [Rejected] are terminal. *)
Definition gate_step (key : string) (now : Z) (authorization : option string)
    (st : GateState) : GateState :=
  match st with
  | Unauthenticated =>
      match extract_bearer authorization with
      | Some t => TokenExtracted t
      | None => Rejected
      end
  | TokenExtracted t =>
      match verify_token key now t with
      | inr cl => Authorized cl
      | inl _ => Rejected
      end
  | Authorized cl => Authorized cl
  | Rejected => Rejected
  end.

(** The machine is evaluated fresh per request: two transitions from
    [Unauthenticated] reach a terminal state. *)
Definition gate (key : string) (now : Z) (authorization : option string) : GateState :=
  gate_step key now authorization
    (gate_step key now authorization Unauthenticated).

Context {rt : Runtime}.
Variable env : Env.

(** Unix seconds, [Math.floor(Date.now() / 1000)]. *)
Definition unix_now : Z := date_now env / 1000.

(** [app.use("/protected/*", jwt({ secret: 'mySecretKey' }))] (README lines
    219-225): on [Authorized] the payload is stored under ['jwtPayload'] and
    the request goes on; otherwise the gate answers and the request goes no
    further. *)
Definition jwt_middleware (req : Request) : M Claims :=
  match gate secret unix_now (req_authorization req) with
  | Authorized payload => ret payload
  | _ => throw (HTTPException 401 "Unauthorized")
  end.

Definition protected_account_balance (req : Request) : M Response :=
  payload <- jwt_middleware req ;;
  account_balance (Some payload).

End Tokens.

(** The runtime whose [sign] is the issuer above. *)
Definition runtime_with_tokens {tp : TokenPrimitives}
    (hash : JsValue -> string -> string + string)
    (verify : JsValue -> string -> string + bool) : Runtime :=
  {| bun_password_hash := hash;
     bun_password_verify := verify;
     hono_sign := fun payload key => inr (sign_claims key payload) |}.

(** Encodings that behave like base64url: no ".", and decoding undoes
    encoding. *)
Class TokenLaws {tp : TokenPrimitives} : Prop := {
  header_is_valid : header_valid encoded_header = true;
  header_dot_free : dot_free encoded_header = true;
  claims_dot_free : forall c, dot_free (encode_claims c) = true;
  signature_dot_free : forall k m, dot_free (signature k m) = true;
  claims_round_trip : forall c, decode_claims (encode_claims c) = Some c
}.

(** ** What of the store is not a password hash *)





(** ** A small concrete runtime

    Stand-ins for bcrypt, base64url and HMAC, simple enough to evaluate, on
    which the handlers can be run on examples.  Nothing below is assumed of
    them beyond what is proved. *)
Module Sample.

Fixpoint checksum (s : string) (acc : Z) : Z :=
  match s with
  | EmptyString => acc
  | String c s' => checksum s' ((acc * 31 + Z.of_N (N_of_ascii c)) mod 65521)
  end.

(** Binary digits, least significant first, closed by ["x"]. *)
Fixpoint pos_bits (p : positive) : string :=
  match p with
  | xH => "x"
  | xO q => String "0" (pos_bits q)
  | xI q => String "1" (pos_bits q)
  end.

Fixpoint read_pos (s : string) : option (positive * string) :=
  match s with
  | EmptyString => None
  | String c s' =>
      if Ascii.eqb c "x" then Some (xH, s')
      else if Ascii.eqb c "0" then
        match read_pos s' with Some (q, r) => Some (xO q, r) | None => None end
      else if Ascii.eqb c "1" then
        match read_pos s' with Some (q, r) => Some (xI q, r) | None => None end
      else None
  end.

Definition z_bits (z : Z) : string :=
  match z with
  | Z0 => "z"
  | Zpos p => String "p" (pos_bits p)
  | Zneg p => String "n" (pos_bits p)
  end.

Definition read_z (s : string) : option (Z * string) :=
  match s with
  | EmptyString => None
  | String c s' =>
      if Ascii.eqb c "z" then Some (0, s')
      else if Ascii.eqb c "p" then
        match read_pos s' with Some (q, r) => Some (Zpos q, r) | None => None end
      else if Ascii.eqb c "n" then
        match read_pos s' with Some (q, r) => Some (Zneg q, r) | None => None end
      else None
  end.

(** ["."] is written ["%d"] and ["%"] is written ["%p"]. *)
Fixpoint escape (s : string) : string :=
  match s with
  | EmptyString => EmptyString
  | String c s' =>
      if Ascii.eqb c "." then String "%" (String "d" (escape s'))
      else if Ascii.eqb c "%" then String "%" (String "p" (escape s'))
      else String c (escape s')
  end.

Fixpoint unescape (s : string) : option string :=
  match s with
  | EmptyString => Some EmptyString
  | String c s' =>
      if Ascii.eqb c "%" then
        match s' with
        | String k s'' =>
            if Ascii.eqb k "d" then option_map (String ".") (unescape s'')
            else if Ascii.eqb k "p" then option_map (String "%") (unescape s'')
            else None
        | EmptyString => None
        end
      else option_map (String c) (unescape s')
  end.

Definition digest (key msg : string) : string :=
  pos_bits (Z.to_pos (checksum (key ++ msg) 7 + 1)).

#[export] Instance primitives : TokenPrimitives := {|
  encoded_header := "h";
  header_valid := fun h => String.eqb h "h";
  encode_claims := fun c => z_bits (exp c) ++ escape (sub c);
  decode_claims := fun s =>
    match read_z s with
    | Some (e, r) =>
        match unescape r with
        | Some i => Some {| sub := i; exp := e |}
        | None => None
        end
    | None => None
    end;
  signature := digest
|}.

(** The encoded hash embeds algorithm, cost, salt and digest. *)
Definition hash (p : JsValue) (salt : string) : string + string :=
  match p with
  | JString s =>
      if String.eqb s "" then inl "password must not be empty"
      else inr ("$2b$04$" ++ salt ++ "$" ++ digest salt s)
  | _ => inl "password must be a string"
  end.

Definition verify (p : JsValue) (h : string) : string + bool :=
  match p, strip_prefix "$2b$04$" h with
  | JString s, Some rest =>
      match split_on "$" rest with
      | [salt; d] => inr (String.eqb d (digest salt s))
      | _ => inl "UnsupportedAlgorithm"
      end
  | JString _, None => inl "UnsupportedAlgorithm"
  | _, _ => inl "password must be a string"
  end.

#[export] Instance runtime : Runtime := runtime_with_tokens hash verify.

Definition env : Env :=
  {| date_now := 1700000000500; salt := "s4lt";
     user_uuid := "u-1"; account_uuid := "a-1" |}.

Definition alice : User :=
  {| id := "u-0"; email := "a@b.com";
     hashedPassword := "$2b$04$s4lt$" ++ digest "s4lt" "pw123456" |}.

Definition store : Store :=
  {| users := [alice];
     accounts := [{| account_id := "a-0"; userId := "u-0"; balance := 25 |}] |}.

Definition world : World := {| db := store; trace := [] |}.

Definition post (em pw : string) : Request :=
  {| req_body := Some (BodyObject (JString em) (JString pw));
     req_authorization := None |}.

Definition get (authorization : option string) : Request :=
  {| req_body := None; req_authorization := authorization |}.

(** A POST whose body is not JSON. *)
Definition not_json : Request :=
  {| req_body := None; req_authorization := None |}.

End Sample.


(** ** Constraints of the schema

    [email String @unique] and [user User @relation(fields: [userId],
    references: [id])] (README lines 65-80), as checks on a store. *)

Fixpoint distinct (l : list string) : bool :=
  match l with
  | [] => true
  | x :: r => negb (existsb (String.eqb x) r) && distinct r
  end.

Definition emails_unique (s : Store) : bool :=
  distinct (map email (users s)).

(** The account's [userId] is the [id] of a stored user. *)
Definition owned (s : Store) (a : Account) : bool :=
  existsb (fun u => String.eqb (id u) (userId a)) (users s).

Definition accounts_owned (s : Store) : bool :=
  forallb (owned s) (accounts s).

(** The row of the [Account] table as the balance route shows it. *)
Definition account_view (a : Account) : AccountView :=
  {| view_balance := balance a; view_id := account_id a |}.

(** * The likes controller of the social-media API (Practical 1)

    [controllers/likeController.js] with the helpers it is built from:
    [utils/errorResponse.js], [middleware/async.js] and
    [middleware/errorHandler.js].  The arrays of [utils/mockData.js] are
    parameters: [users] and [posts] are only read, [likes] is the state the
    handlers thread.  Identifiers are strings, as [(likes.length +
    1).toString()] and the comparison with the [X-User-Id] header have
    them. *)

From Stdlib Require DecimalString DecimalNat.

Module Likes.

Record Like : Type := {
  id : string;
  user_id : string;
  post_id : string;
  created_at : string
}.

Record User : Type := {
  u_id : string;
  username : string;
  full_name : string;
  profile_picture : string
}.

Record Post : Type := {
  p_id : string;
  caption : string;
  image : string
}.

(** An [Error] object: [ErrorResponse] sets [statusCode], a [TypeError] has
    none. *)
Record JsError : Type := {
  message : string;
  statusCode : option Z
}.

(** [new ErrorResponse(message, statusCode)] *)
Definition ErrorResponse (message : string) (statusCode : Z) : JsError :=
  {| message := message; statusCode := Some statusCode |}.

(** [data]: a like; a like with [user: { id, username, full_name,
    profile_picture }] and [post: { id, caption, image }]; or [{}]. *)
Inductive Data : Type :=
| DataLike (like : Like)
| DataEnhanced (like : Like) (user : User) (post : Post)
| DataEmpty.

(** [{ page, limit }] *)
Record PageRef : Type := {
  ref_page : Z;
  ref_limit : Z
}.

(** [{ count, page, total_pages, pagination: { next, prev }, data }] *)
Record Listing : Type := {
  count : Z;
  page : Z;
  total_pages : Z;
  next : option PageRef;
  prev : option PageRef;
  data : list (Like * User * Post)
}.

(** [{ success: true, data }], [{ success: true, count, ... }] or
    [{ success: false, error }] *)
Inductive Json : Type :=
| Success (data : Data)
| SuccessList (listing : Listing)
| Failure (error : string).

Record Response : Type := {
  status : Z;
  json : Json
}.

(** How a handler ends: [res.status(s).json(obj)], [return next(err)], or an
    exception. *)
Inductive Outcome : Type :=
| Responded (r : Response)
| Next (err : JsError)
| Thrown (err : JsError).

(** [query_page] and [query_limit] are the values of
    [parseInt(req.query.page, 10)] and [parseInt(req.query.limit, 10)]:
    [None] is [NaN].  [req.body] is the object [express.json()] leaves, so
    [req.body.post_id] is a value or [undefined]. *)
Record Request : Type := {
  x_user_id : option string;     (* [req.header('X-User-Id')] *)
  params_id : string;            (* [req.params.id] *)
  body_post_id : JsValue;        (* [req.body.post_id] *)
  query_page : option Z;
  query_limit : option Z
}.

(** [n || d] for a number: [NaN] and 0 give [d]. *)
Definition or_default (n : option Z) (d : Z) : Z :=
  match n with
  | None | Some 0 => d
  | Some v => v
  end.

(** [arr.slice(start, end)]: negative indices count from the end, and both
    are clamped to the array. *)
Definition slice {A} (start end_ : Z) (l : list A) : list A :=
  let len := Z.of_nat (length l) in
  let k := if start <? 0 then Z.max (len + start) 0 else Z.min start len in
  let final := if end_ <? 0 then Z.max (len + end_) 0 else Z.min end_ len in
  firstn (Z.to_nat (Z.max (final - k) 0)) (skipn (Z.to_nat k) l).

(** [Math.ceil(a / b)] for integers, [b] not 0. *)
Definition ceil_div (a b : Z) : Z := - ((- a) / b).

(** The numbers of the source are doubles.  The integer arithmetic below
    agrees with them as long as page, limit and the length of the array
    stay within 2^26 in absolute value: products and quotients of such
    numbers are exact. *)
Definition exact (z : Z) : Prop := - 2 ^ 26 <= z <= 2 ^ 26.

(** [(n).toString()] of a length. *)
Definition toString (n : nat) : string :=
  DecimalString.NilEmpty.string_of_uint (Nat.to_uint n).

(** [arr.findIndex(p)]: the first index where [p] holds, or -1. *)
Fixpoint findIndex {A} (p : A -> bool) (l : list A) : Z :=
  match l with
  | [] => -1
  | x :: r =>
      if p x then 0
      else match findIndex p r with
           | -1 => -1
           | i => i + 1
           end
  end.

(** [arr.splice(start, 1)]: a negative [start] counts from the end. *)
Definition splice1 {A} (start : Z) (l : list A) : list A :=
  let len := Z.of_nat (length l) in
  let actual := if start <? 0 then Z.max (len + start) 0 else Z.min start len in
  firstn (Z.to_nat actual) l ++ skipn (Z.to_nat actual + 1) l.

(** [const asyncHandler = fn => (req, res, next) =>
    Promise.resolve(fn(req, res, next)).catch(next)] *)
Definition asyncHandler {S} (fn : Request -> S -> Outcome * S)
    (req : Request) (s : S) : Outcome * S :=
  match fn req s with
  | (Thrown err, s') => (Next err, s')
  | r => r
  end.

(** [res.status(error.statusCode || 500).json({ success: false, error:
    error.message || 'Server Error' })] *)
Definition errorHandler (err : JsError) : Response :=
  {| status := match statusCode err with
               | Some 0 | None => 500
               | Some c => c
               end;
     json := Failure (if String.eqb (message err) "" then "Server Error"
                      else message err) |}.

Section Controller.

Variable users : list User.
Variable posts : list Post.
Variable today : string.          (* [new Date().toISOString().slice(0, 10)] *)
Variable cannot_read : string.    (* the engine's message for [undefined.id] *)

Definition find_user (uid : string) : option User :=
  find (fun user => String.eqb (u_id user) uid) users.

Definition find_post (pid : string) : option Post :=
  find (fun post => String.eqb (p_id post) pid) posts.

Definition find_like (lid : string) (likes : list Like) : option Like :=
  find (fun like => String.eqb (id like) lid) likes.

(** [exports.getLike] (likeController.js lines 69-100) *)
Definition getLike (req : Request) (likes : list Like) : Outcome * list Like :=
  match find_like (params_id req) likes with
  | None =>
      (Next (ErrorResponse ("Like not found with id of " ++ params_id req) 404),
       likes)
  | Some like =>
      match find_user (user_id like), find_post (post_id like) with
      | Some user, Some post =>
          (Responded {| status := 200;
                        json := Success (DataEnhanced like user post) |},
           likes)
      | _, _ => (Thrown {| message := cannot_read; statusCode := None |}, likes)
      end
  end.

(** [exports.createLike] (likeController.js lines 105-135) *)
Definition createLike (req : Request) (likes : list Like)
  : Outcome * list Like :=
  match x_user_id req with
  | None =>
      (Next (ErrorResponse "Not authorized to access this route" 401), likes)
  | Some userId =>
      if String.eqb userId "" then
        (Next (ErrorResponse "Not authorized to access this route" 401), likes)
      else
        match find_user userId with
        | None => (Next (ErrorResponse "User not found" 404), likes)
        | Some _ =>
            match body_post_id req with
            | JString pid =>
                match find_post pid with
                | None => (Next (ErrorResponse "Post not found" 404), likes)
                | Some _ =>
                    let newLike :=
                      {| id := toString (length likes + 1);
                         user_id := userId;
                         post_id := pid;
                         created_at := today |} in
                    (Responded {| status := 201;
                                  json := Success (DataLike newLike) |},
                     (likes ++ [newLike])%list)
                end
            | _ => (Next (ErrorResponse "Post not found" 404), likes)
            end
        end
  end.

(** [exports.deleteLike] (likeController.js lines 178-206) *)
Definition deleteLike (req : Request) (likes : list Like)
  : Outcome * list Like :=
  match x_user_id req with
  | None =>
      (Next (ErrorResponse "Not authorized to access this route" 401), likes)
  | Some userId =>
      if String.eqb userId "" then
        (Next (ErrorResponse "Not authorized to access this route" 401), likes)
      else
        match find_like (params_id req) likes with
        | None =>
            (Next (ErrorResponse
                     ("Like not found with id of " ++ params_id req) 404),
             likes)
        | Some like =>
            if negb (String.eqb (user_id like) userId) then
              (Next (ErrorResponse "Not authorized to delete this like" 401),
               likes)
            else
              let index :=
                findIndex (fun like => String.eqb (id like) (params_id req))
                          likes in
              (Responded {| status := 200; json := Success DataEmpty |},
               splice1 index likes)
        end
  end.

(** [results.map(like => ({ ...like, user: {...}, post: {...} }))]: reading
    [user.id] or [post.id] of a missing user or post throws. *)
Fixpoint enhance (results : list Like) : option (list (Like * User * Post)) :=
  match results with
  | [] => Some []
  | like :: rest =>
      match find_user (user_id like), find_post (post_id like) with
      | Some user, Some post =>
          match enhance rest with
          | Some l => Some ((like, user, post) :: l)
          | None => None
          end
      | _, _ => None
      end
  end.

(** [exports.getLikes] (likeController.js lines 8-64) *)
Definition getLikes (req : Request) (likes : list Like)
  : Outcome * list Like :=
  let page := or_default (query_page req) 1 in
  let limit := or_default (query_limit req) 10 in
  let startIndex := (page - 1) * limit in
  let endIndex := page * limit in
  let total := Z.of_nat (length likes) in
  let results := slice startIndex endIndex likes in
  match enhance results with
  | None => (Thrown {| message := cannot_read; statusCode := None |}, likes)
  | Some enhancedResults =>
      (Responded
         {| status := 200;
            json := SuccessList
              {| count := Z.of_nat (length enhancedResults);
                 page := page;
                 total_pages := ceil_div total limit;
                 next := if endIndex <? total
                         then Some {| ref_page := page + 1; ref_limit := limit |}
                         else None;
                 prev := if startIndex >? 0
                         then Some {| ref_page := page - 1; ref_limit := limit |}
                         else None;
                 data := enhancedResults |} |},
       likes)
  end.

(** A handler behind [asyncHandler], with [errorHandler] mounted after the
    routes: what the client is answered, and the [likes] array left. *)
Definition serve (fn : Request -> list Like -> Outcome * list Like)
    (req : Request) (likes : list Like) : Response * list Like :=
  match asyncHandler fn req likes with
  | (Responded r, likes') => (r, likes')
  | (Next err, likes') => (errorHandler err, likes')
  | (Thrown err, likes') => (errorHandler err, likes')
  end.

End Controller.

(** The ids [(likes.length + 1).toString()] gives when nothing was ever
    deleted: "1", "2", ..., in order. *)
Fixpoint ids_from (k : nat) (likes : list Like) : bool :=
  match likes with
  | [] => true
  | like :: rest => String.eqb (id like) (toString k) && ids_from (S k) rest
  end.

Definition ids_in_sequence (likes : list Like) : bool := ids_from 1 likes.

(** Example arrays. *)
Definition sample_users : list User :=
  [{| u_id := "1"; username := "traveler"; full_name := "Karma";
      profile_picture := "karma.jpg" |};
   {| u_id := "2"; username := "foodie"; full_name := "Pema";
      profile_picture := "pema.jpg" |}].

Definition sample_posts : list Post :=
  [{| p_id := "1"; caption := "Sunset"; image := "sunset.jpg" |};
   {| p_id := "2"; caption := "Lunch"; image := "lunch.jpg" |}].

Definition sample_likes : list Like :=
  [{| id := "1"; user_id := "1"; post_id := "2"; created_at := "2023-01-15" |};
   {| id := "2"; user_id := "2"; post_id := "1"; created_at := "2023-01-16" |};
   {| id := "3"; user_id := "1"; post_id := "1"; created_at := "2023-01-17" |}].

Definition request (uid : option string) (lid : string) (pid : JsValue)
  : Request :=
  {| x_user_id := uid; params_id := lid; body_post_id := pid;
     query_page := None; query_limit := None |}.

(** [GET /?page=..&limit=..] *)
Definition listing (page limit : option Z) : Request :=
  {| x_user_id := None; params_id := ""; body_post_id := JUndefined;
     query_page := page; query_limit := limit |}.

End Likes.

(** The likes a [getLikes] answer lists, in order; none when it did not
    answer. *)
Definition listed_likes (out : Likes.Outcome * list Likes.Like)
  : list Likes.Like :=
  match fst out with
  | Likes.Responded r =>
      match Likes.json r with
      | Likes.SuccessList lst => map (fun t => fst (fst t)) (Likes.data lst)
      | _ => []
      end
  | _ => []
  end.

(** * Properties *)

Ltac unfold_m :=
  unfold run, world_after, bind, ret, throw, try_catch, emit, get_db, put_db,
    lift in *.

Ltac unfold_handlers :=
  unfold login, login_try, register, register_try, register_catch,
    protected_account_balance, jwt_middleware, account_balance,
    prisma_user_create, prisma_user_findUnique_email,
    prisma_user_findUnique_id, password_hash, password_verify, sign,
    c_req_json, body_email, body_password in *.

(** ** The monad *)

Lemma bind_inr {A B} (m : M A) (k : A -> M B) w a w' :
  m w = (inr a, w') -> bind m k w = k a w'.
Proof. unfold bind; intros ->; reflexivity. Qed.

Lemma bind_inl {A B} (m : M A) (k : A -> M B) w e w' :
  m w = (inl e, w') -> bind m k w = (inl e, w').
Proof. unfold bind; intros ->; reflexivity. Qed.

Lemma try_catch_inr {A} (m : M A) h w a w' :
  m w = (inr a, w') -> try_catch m h w = (inr a, w').
Proof. unfold try_catch; intros ->; reflexivity. Qed.

Lemma try_catch_inl {A} (m : M A) h w e w' :
  m w = (inl e, w') -> try_catch m h w = h e w'.
Proof. unfold try_catch; intros ->; reflexivity. Qed.

(** ** Login *)

Section LoginFacts.

Context {rt : Runtime}.
Variable env : Env.

(** The [catch] clause of the login handler turns whatever was thrown into
    one exception. *)
Lemma login_catches (req : Request) (w : World) :
  login env req w =
  match login_try env req w with
  | (inr r, w') => (inr r, w')
  | (inl _, w') => (inl (HTTPException 401 "Invalid credentials"), w')
  end.
Proof. unfold login, try_catch, throw. destruct (login_try env req w) as [[e|r] w']; reflexivity. Qed.

(** Whatever the [try] block returns, it returns through [c.json]. *)
Lemma login_try_returns_200 (req : Request) (w : World) (r : Response) :
  run (login_try env req) w = inr r -> status r = 200.
Proof.
  unfold_handlers; unfold_m.
  destruct (req_body req) as [[|em pw]|]; simpl; try discriminate.
  destruct em as [| |e|n]; simpl; try discriminate.
  destruct (find_user_by_email (db w) e) as [u|]; simpl.
  - destruct (bun_password_verify pw (hashedPassword u)) as [n|[|]]; simpl;
      try discriminate.
    destruct (hono_sign (login_payload env u) secret) as [n|tok]; simpl;
      try discriminate.
    intros [= <-]; reflexivity.
  - intros [= <-]; reflexivity.
Qed.

Lemma login_responds_200_or_401 (req : Request) (w : World) :
  status (respond (run (login env req) w)) = 200 \/
  respond (run (login env req) w) = invalid_credentials.
Proof.
  unfold run at 1 2. rewrite login_catches.
  destruct (login_try env req w) as [[e|r] w'] eqn:E; simpl.
  - right; reflexivity.
  - left. apply (login_try_returns_200 req w). unfold run; rewrite E; reflexivity.
Qed.

Lemma login_thrown (req : Request) (w : World) (e : Exn) :
  run (login_try env req) w = inl e ->
  run (login env req) w = inl (HTTPException 401 "Invalid credentials").
Proof.
  unfold run. rewrite login_catches.
  destruct (login_try env req w) as [[e'|r] w']; simpl; [reflexivity|discriminate].
Qed.

End LoginFacts.

(** C10: whatever is thrown while the login handler runs (a body that is not
    JSON, an error of the password check, the wrong-password rejection) is
    answered 401 with message "Invalid credentials"; login never answers 400
    or 500. *)
Theorem login_exceptions_answer_401 {rt : Runtime} (env : Env) (req : Request)
    (w : World) :
  (forall e, run (login_try env req) w = inl e ->
             respond (run (login env req) w) = invalid_credentials) /\
  status (respond (run (login env req) w)) <> 400 /\
  status (respond (run (login env req) w)) <> 500 /\
  (req_body req = None ->
   respond (run (login env req) w) = invalid_credentials) /\
  (forall em pw u name,
     req_body req = Some (BodyObject (JString em) pw) ->
     find_user_by_email (db w) em = Some u ->
     bun_password_verify pw (hashedPassword u) = inl name ->
     respond (run (login env req) w) = invalid_credentials) /\
  (forall em pw u,
     req_body req = Some (BodyObject (JString em) pw) ->
     find_user_by_email (db w) em = Some u ->
     bun_password_verify pw (hashedPassword u) = inr false ->
     respond (run (login env req) w) = invalid_credentials).
Proof.
  assert (collapse : forall e, run (login_try env req) w = inl e ->
            respond (run (login env req) w) = invalid_credentials).
  { intros e He. rewrite (login_thrown env req w e He). reflexivity. }
  split; [exact collapse|].
  split; [|split].
  - destruct (login_responds_200_or_401 env req w) as [H|H]; rewrite H;
      [lia | simpl; lia].
  - destruct (login_responds_200_or_401 env req w) as [H|H]; rewrite H;
      [lia | simpl; lia].
  - split; [|split].
    + intros Hb. apply (collapse SyntaxError).
      unfold_handlers; unfold_m. rewrite Hb. reflexivity.
    + intros em pw u name Hb Hu Hv. apply (collapse (RuntimeError name)).
      unfold_handlers; unfold_m. rewrite Hb; simpl. rewrite Hu; simpl.
      rewrite Hv. reflexivity.
    + intros em pw u Hb Hu Hv.
      apply (collapse (HTTPException 401 "Invalid credentials")).
      unfold_handlers; unfold_m. rewrite Hb; simpl. rewrite Hu; simpl.
      rewrite Hv. reflexivity.
Qed.

Lemma login_exceptions_answer_401_witness :
  respond (run (login (rt := Sample.runtime) Sample.env Sample.not_json)
               Sample.world) = invalid_credentials /\
  respond (run (login (rt := Sample.runtime) Sample.env
                      (Sample.post "a@b.com" "wrong"))
               Sample.world) = invalid_credentials.
Proof.
  split.
  - apply (proj1 (proj2 (proj2 (proj2
      (login_exceptions_answer_401 (rt := Sample.runtime) Sample.env
         Sample.not_json Sample.world))))).
    reflexivity.
  - apply (proj2 (proj2 (proj2 (proj2 (proj2
      (login_exceptions_answer_401 (rt := Sample.runtime) Sample.env
         (Sample.post "a@b.com" "wrong") Sample.world)))))
      "a@b.com" (JString "wrong") Sample.alice); reflexivity.
Defined.

(** What the login handler answers when the email is not in the store. *)
Lemma login_unknown_email {rt : Runtime} (env : Env) (em : string)
    (pw : JsValue) (auth : option string) (w : World) :
  find_user_by_email (db w) em = None ->
  run (login env {| req_body := Some (BodyObject (JString em) pw);
                    req_authorization := auth |}) w
  = inr {| status := 200; body := MessageBody "User not found" |}.
Proof.
  intros Hu. unfold_handlers; unfold_m; simpl. rewrite Hu. reflexivity.
Qed.

(** C1: an unknown email and a wrong password are to be answered alike, 401
    "Invalid credentials".  The handler answers the unknown email with 200
    "User not found" and only the wrong password with 401 "Invalid
    credentials". *)
Theorem login_unknown_email_differs_from_wrong_password :
  respond (run (login (rt := Sample.runtime) Sample.env
                      (Sample.post "ghost@b.com" "pw123456"))
               Sample.world)
  = {| status := 200; body := MessageBody "User not found" |} /\
  respond (run (login (rt := Sample.runtime) Sample.env
                      (Sample.post "a@b.com" "wrong"))
               Sample.world)
  = {| status := 401; body := MessageBody "Invalid credentials" |}.
Proof.
  split.
  - unfold Sample.post. rewrite login_unknown_email; reflexivity.
  - reflexivity.
Qed.

(** ** Strings: prefixes and splitting *)

Lemma append_assoc (a b c : string) : ((a ++ b) ++ c = a ++ (b ++ c))%string.
Proof. induction a as [|x a IH]; simpl; [reflexivity | now rewrite IH]. Qed.

Lemma strip_prefix_append (p t : string) : strip_prefix p (p ++ t) = Some t.
Proof.
  induction p as [|a p IH]; simpl; [reflexivity|].
  now rewrite Ascii.eqb_refl.
Qed.

Lemma strip_prefix_sound (p s t : string) :
  strip_prefix p s = Some t -> s = (p ++ t)%string.
Proof.
  revert s; induction p as [|a p IH]; intros s; simpl.
  - now intros [= ->].
  - destruct s as [|b s]; [discriminate|].
    destruct (Ascii.eqb_spec a b) as [->|]; [|discriminate].
    intros H; now rewrite (IH s H).
Qed.

Lemma split_on_dot_free (s : string) :
  dot_free s = true -> split_on "." s = [s].
Proof.
  induction s as [|a s IH]; simpl; [reflexivity|].
  destruct (Ascii.eqb a "."); simpl; [discriminate|].
  intros H; now rewrite (IH H).
Qed.

Lemma split_on_first_dot (a b : string) :
  dot_free a = true ->
  split_on "." (a ++ String "." b) = a :: split_on "." b.
Proof.
  induction a as [|x a IH]; simpl; [reflexivity|].
  destruct (Ascii.eqb x "."); simpl; [discriminate|].
  intros H; now rewrite (IH H).
Qed.

Lemma split_three (h c s : string) :
  dot_free h = true -> dot_free c = true -> dot_free s = true ->
  split_on "." (h ++ "." ++ c ++ "." ++ s) = [h; c; s].
Proof.
  intros Hh Hc Hs.
  change (h ++ "." ++ c ++ "." ++ s)%string
    with (h ++ String "." (c ++ String "." s))%string.
  now rewrite (split_on_first_dot h _ Hh), (split_on_first_dot c _ Hc),
    (split_on_dot_free s Hs).
Qed.

(** ** Tokens *)

Section TokenFacts.

Context {tp : TokenPrimitives}.

(** A token in three parts with valid encodings and the right signature has
    only its expiry left to check. *)
Lemma verify_token_authentic (key token h c s : string) (cl : Claims) (t : Z) :
  split_on "." token = [h; c; s] ->
  header_valid h = true ->
  decode_claims c = Some cl ->
  signature key (h ++ "." ++ c) = s ->
  verify_token key t token = if exp cl <=? t then inl Expired else inr cl.
Proof.
  intros Hsplit Hh Hc Hs. unfold verify_token.
  rewrite Hsplit, Hh, Hc, Hs, String.eqb_refl. reflexivity.
Qed.


(** A token the verifier accepts is returned with claims not yet expired. *)
Lemma verify_token_accepts (key token : string) (t : Z) (cl : Claims) :
  verify_token key t token = inr cl -> t < exp cl.
Proof.
  unfold verify_token.
  destruct (split_on "." token) as [|h [|c [|s [|x l]]]]; try discriminate.
  destruct (header_valid h); [|discriminate].
  destruct (decode_claims c) as [cl'|]; [|discriminate].
  destruct (String.eqb (signature key (h ++ "." ++ c)) s); [|discriminate].
  destruct (exp cl' <=? t) eqn:Ht; [discriminate|].
  intros [= <-]. lia.
Qed.

Context {laws : TokenLaws}.

Lemma sign_claims_splits (key : string) (c : Claims) :
  split_on "." (sign_claims key c)
  = [encoded_header; encode_claims c;
     signature key (encoded_header ++ "." ++ encode_claims c)].
Proof.
  unfold sign_claims. cbv zeta.
  rewrite append_assoc.
  change (split_on "."
            (encoded_header ++ "." ++ encode_claims c ++ "."
               ++ signature key (encoded_header ++ "." ++ encode_claims c))
          = [encoded_header; encode_claims c;
             signature key (encoded_header ++ "." ++ encode_claims c)]).
  apply split_three.
  - apply header_dot_free.
  - apply claims_dot_free.
  - apply signature_dot_free.
Qed.

(** What the issuer signs, the verifier accepts until [exp]. *)
Lemma verify_token_signed (key : string) (c : Claims) (t : Z) :
  verify_token key t (sign_claims key c)
  = if exp c <=? t then inl Expired else inr c.
Proof.
  apply (verify_token_authentic key _ encoded_header (encode_claims c)
           (signature key (encoded_header ++ "." ++ encode_claims c))).
  - apply sign_claims_splits.
  - apply header_is_valid.
  - apply claims_round_trip.
  - reflexivity.
Qed.

End TokenFacts.

(** ** The sample encodings are lawful *)

Lemma dot_free_append (a b : string) :
  dot_free (a ++ b) = dot_free a && dot_free b.
Proof.
  induction a as [|x a IH]; simpl; [reflexivity|].
  now rewrite IH, andb_assoc.
Qed.

Lemma pos_bits_dot_free (p : positive) : dot_free (Sample.pos_bits p) = true.
Proof. induction p as [p IH|p IH|]; simpl; auto. Qed.

Lemma z_bits_dot_free (z : Z) : dot_free (Sample.z_bits z) = true.
Proof. destruct z; simpl; auto using pos_bits_dot_free. Qed.

Lemma escape_dot_free (s : string) : dot_free (Sample.escape s) = true.
Proof.
  induction s as [|c s IH]; simpl; [reflexivity|].
  destruct (Ascii.eqb c ".") eqn:Hdot; [simpl; exact IH|].
  destruct (Ascii.eqb c "%"); simpl; [exact IH|].
  now rewrite Hdot.
Qed.

Lemma read_pos_bits (p : positive) (r : string) :
  Sample.read_pos (Sample.pos_bits p ++ r) = Some (p, r).
Proof. induction p as [p IH|p IH|]; simpl; try rewrite IH; reflexivity. Qed.

Lemma read_z_bits (z : Z) (r : string) :
  Sample.read_z (Sample.z_bits z ++ r) = Some (z, r).
Proof. destruct z; simpl; try rewrite read_pos_bits; reflexivity. Qed.

Lemma unescape_escape (s : string) :
  Sample.unescape (Sample.escape s) = Some s.
Proof.
  induction s as [|c s IH]; simpl; [reflexivity|].
  destruct (Ascii.eqb_spec c ".") as [->|Hdot]; [simpl; now rewrite IH|].
  destruct (Ascii.eqb_spec c "%") as [->|Hpct]; [simpl; now rewrite IH|].
  simpl. destruct (Ascii.eqb_spec c "%") as [|_]; [contradiction|].
  now rewrite IH.
Qed.

Lemma sample_laws : @TokenLaws Sample.primitives.
Proof.
  split; simpl.
  - reflexivity.
  - reflexivity.
  - intros c. now rewrite dot_free_append, z_bits_dot_free, escape_dot_free.
  - intros k m. apply pos_bits_dot_free.
  - intros [s e]; simpl. now rewrite read_z_bits, unescape_escape.
Qed.

(** ** Expiry *)




(** ** The authorization gate and the protected route *)

Section GateFacts.

Context {tp : TokenPrimitives}.
Variable env : Env.

(** The gate ends in one of its two terminal states. *)
Lemma gate_cases (key : string) (now : Z) (authorization : option string) :
  gate key now authorization =
  match extract_bearer authorization with
  | Some t =>
      match verify_token key now t with
      | inr cl => Authorized cl
      | inl _ => Rejected
      end
  | None => Rejected
  end.
Proof.
  unfold gate, gate_step. destruct (extract_bearer authorization); reflexivity.
Qed.

Lemma gate_authorized (key : string) (now : Z) (authorization : option string)
    (payload : Claims) :
  gate key now authorization = Authorized payload <->
  exists token, authorization = Some ("Bearer " ++ token)%string /\
                verify_token key now token = inr payload.
Proof.
  rewrite gate_cases. split.
  - destruct authorization as [h|]; unfold extract_bearer; [|discriminate].
    destruct (strip_prefix "Bearer " h) as [t|] eqn:Hp; [|discriminate].
    destruct (verify_token key now t) as [err|cl] eqn:Hv; [discriminate|].
    intros [= ->]. exists t. split; [|assumption].
    now rewrite (strip_prefix_sound _ _ _ Hp).
  - intros (token & -> & Hv). unfold extract_bearer.
    now rewrite strip_prefix_append, Hv.
Qed.

Lemma account_balance_runs (payload : Claims) (w : World) :
  account_balance (Some payload) w
  = (inr (c_json (DataBody
            match find_user_by_id (db w) (sub payload) with
            | Some u => Some (accounts_of (db w) (id u))
            | None => None
            end)),
     {| db := db w;
        trace := trace w ++ [EvHandler "/protected/account/balance";
                             EvFindById (sub payload)] |}).
Proof.
  unfold_handlers; unfold_m; simpl. now rewrite <- app_assoc.
Qed.

Lemma protected_rejected (req : Request) (w : World) :
  gate secret (unix_now env) (req_authorization req) = Rejected ->
  protected_account_balance env req w
  = (inl (HTTPException 401 "Unauthorized"), w).
Proof.
  intros Hg. unfold protected_account_balance, jwt_middleware.
  rewrite Hg. reflexivity.
Qed.

Lemma protected_authorized (req : Request) (w : World) (payload : Claims) :
  gate secret (unix_now env) (req_authorization req) = Authorized payload ->
  protected_account_balance env req w = account_balance (Some payload) w.
Proof.
  intros Hg. unfold protected_account_balance, jwt_middleware.
  rewrite Hg. reflexivity.
Qed.

End GateFacts.

(** C3: on a protected route, a missing header, a header that is not
    [Bearer <token>], and a token the verifier refuses (malformed, wrong
    signature, expired) all end in [Rejected]; a rejected request is answered
    401 "Unauthorized" and leaves the world as it was, so the handler did not
    run; the handler runs only for a token that verifies, and is then given
    its payload, whose [sub] it looks up; were the handler entered without a
    payload, it would itself answer 401 "Unauthorized". *)
Theorem gate_rejects_uniformly {tp : TokenPrimitives} (env : Env)
    (req : Request) (w : World) :
  let verdict := gate secret (unix_now env) (req_authorization req) in
  let after := protected_account_balance env req w in
  (req_authorization req = None -> verdict = Rejected) /\
  (forall h, req_authorization req = Some h ->
             strip_prefix "Bearer " h = None -> verdict = Rejected) /\
  (forall token err,
     req_authorization req = Some ("Bearer " ++ token)%string ->
     verify_token secret (unix_now env) token = inl err ->
     verdict = Rejected) /\
  (verdict = Rejected ->
   after = (inl (HTTPException 401 "Unauthorized"), w) /\
   respond (fst after) = unauthorized) /\
  (forall token payload,
     req_authorization req = Some ("Bearer " ++ token)%string ->
     verify_token secret (unix_now env) token = inr payload ->
     after = account_balance (Some payload) w /\
     trace (snd after)
     = (trace w ++ [EvHandler "/protected/account/balance";
                    EvFindById (sub payload)])%list) /\
  (trace (snd after) <> trace w ->
   exists token payload,
     req_authorization req = Some ("Bearer " ++ token)%string /\
     verify_token secret (unix_now env) token = inr payload /\
     after = account_balance (Some payload) w) /\
  respond (run (account_balance None) w) = unauthorized.
Proof.
  cbv zeta.
  split; [|split; [|split; [|split; [|split; [|split]]]]];
    [| | | | | |reflexivity].
  - intros H. rewrite gate_cases, H. reflexivity.
  - intros h H Hp. rewrite gate_cases, H. unfold extract_bearer.
    now rewrite Hp.
  - intros token err H Hv. rewrite gate_cases, H. unfold extract_bearer.
    now rewrite strip_prefix_append, Hv.
  - intros Hg. rewrite (protected_rejected env req w Hg). split; reflexivity.
  - intros token payload H Hv.
    assert (Hg : gate secret (unix_now env) (req_authorization req)
                 = Authorized payload)
      by (apply gate_authorized; eauto).
    rewrite (protected_authorized env req w payload Hg).
    split; [reflexivity|]. now rewrite account_balance_runs.
  - intros Hchanged.
    destruct (gate secret (unix_now env) (req_authorization req))
      as [|t|payload|] eqn:Hg.
    + rewrite gate_cases in Hg.
      destruct (extract_bearer (req_authorization req)) as [t|];
        [destruct (verify_token secret (unix_now env) t)|]; discriminate.
    + rewrite gate_cases in Hg.
      destruct (extract_bearer (req_authorization req)) as [t'|];
        [destruct (verify_token secret (unix_now env) t')|]; discriminate.
    + destruct (proj1 (gate_authorized _ _ _ _) Hg) as (token & Ha & Hv).
      exists token, payload. repeat split; try assumption.
      apply protected_authorized; assumption.
    + rewrite (protected_rejected env req w Hg) in Hchanged.
      now contradiction Hchanged.
Qed.

Lemma gate_rejects_uniformly_witness :
  respond (run (protected_account_balance (tp := Sample.primitives)
                  Sample.env (Sample.get None)) Sample.world) = unauthorized /\
  respond (run (protected_account_balance (tp := Sample.primitives)
                  Sample.env (Sample.get (Some "Basic abc"))) Sample.world)
  = unauthorized /\
  world_after (protected_account_balance (tp := Sample.primitives)
                 Sample.env (Sample.get (Some "Bearer a.b.c"))) Sample.world
  = Sample.world.
Proof.
  split; [|split].
  - apply (proj1 (proj2 (proj2 (proj2
      (gate_rejects_uniformly (tp := Sample.primitives) Sample.env
         (Sample.get None) Sample.world))))).
    apply (proj1 (gate_rejects_uniformly (tp := Sample.primitives) Sample.env
                    (Sample.get None) Sample.world)).
    reflexivity.
  - apply (proj1 (proj2 (proj2 (proj2
      (gate_rejects_uniformly (tp := Sample.primitives) Sample.env
         (Sample.get (Some "Basic abc")) Sample.world))))).
    apply (proj1 (proj2
      (gate_rejects_uniformly (tp := Sample.primitives) Sample.env
         (Sample.get (Some "Basic abc")) Sample.world)) "Basic abc");
      reflexivity.
  - unfold world_after.
    rewrite (proj1 (proj1 (proj2 (proj2 (proj2
      (gate_rejects_uniformly (tp := Sample.primitives) Sample.env
         (Sample.get (Some "Bearer a.b.c")) Sample.world))))
      (proj1 (proj2 (proj2
      (gate_rejects_uniformly (tp := Sample.primitives) Sample.env
         (Sample.get (Some "Bearer a.b.c")) Sample.world)))
         "a.b.c" Malformed eq_refl eq_refl))).
    reflexivity.
Defined.

(** C9: a token that verifies but whose [sub] is the id of no stored user
    gets no error from the balance endpoint: the answer is 200 with body
    [{data: null}], the absent result of the lookup passed on as it is. *)
Theorem balance_of_unknown_subject {tp : TokenPrimitives} (env : Env)
    (req : Request) (w : World) (token : string) (payload : Claims) :
  req_authorization req = Some ("Bearer " ++ token)%string ->
  verify_token secret (unix_now env) token = inr payload ->
  find_user_by_id (db w) (sub payload) = None ->
  run (account_balance (Some payload)) w
  = inr {| status := 200; body := DataBody None |} /\
  respond (run (protected_account_balance env req) w)
  = {| status := 200; body := DataBody None |}.
Proof.
  intros Ha Hv Hu.
  assert (Hg : gate secret (unix_now env) (req_authorization req)
               = Authorized payload)
    by (apply gate_authorized; eauto).
  unfold run. rewrite (protected_authorized env req w payload Hg).
  rewrite account_balance_runs, Hu. split; reflexivity.
Qed.

Lemma balance_of_unknown_subject_witness :
  respond (run (protected_account_balance (tp := Sample.primitives) Sample.env
                  (Sample.get (Some ("Bearer " ++
                     sign_claims (tp := Sample.primitives) secret
                       {| sub := "u-7"; exp := 1700003600 |})%string)))
               Sample.world)
  = {| status := 200; body := DataBody None |}.
Proof.
  apply (balance_of_unknown_subject (tp := Sample.primitives) Sample.env _
           Sample.world
           (sign_claims (tp := Sample.primitives) secret
              {| sub := "u-7"; exp := 1700003600 |})
           {| sub := "u-7"; exp := 1700003600 |});
    reflexivity.
Defined.

(** ** Issuance *)

Section IssuanceFacts.

Context {rt : Runtime}.
Variable env : Env.

(** The world a login leaves behind: the database as it was, and at most one
    signing, of the payload built from the user found and the clock. *)
Lemma login_world (req : Request) (w : World) :
  db (world_after (login env req) w) = db w /\
  forall s e,
    In (EvSign s e) (trace (world_after (login env req) w)) ->
    In (EvSign s e) (trace w) \/
    exists u, s = id u /\ e = exp (login_payload env u).
Proof.
  unfold_handlers; unfold_m.
  destruct (req_body req) as [[|em pw]|]; simpl; auto.
  destruct em as [| |a|n]; simpl;
    try (split; [reflexivity|]; intros s e [H|[H|[]]]%in_app_or; auto;
         discriminate).
  destruct (find_user_by_email (db w) a) as [u|]; simpl;
    try (split; [reflexivity|]; intros s e [H|[H|[]]]%in_app_or; auto;
         discriminate).
  destruct (bun_password_verify pw (hashedPassword u)) as [n|[|]]; simpl;
    try (split; [reflexivity|];
         intros s e [[H|[H|[]]]%in_app_or|[H|[]]]%in_app_or; auto;
         discriminate).
  destruct (hono_sign (login_payload env u) secret) as [n|tok]; simpl;
    (split; [reflexivity|];
     intros s e [[[H|[H|[]]]%in_app_or|[H|[]]]%in_app_or|[H|[]]]%in_app_or;
     auto; try discriminate;
     injection H as <- <-; right; exists u; split; reflexivity).
Qed.

(** A token in a login answer is the signed payload of the user found. *)
Lemma login_token (req : Request) (w : World) (r : Response) (tok : string) :
  run (login env req) w = inr r -> body r = TokenBody "Login successful" tok ->
  exists u, hono_sign (login_payload env u) secret = inr tok.
Proof.
  unfold_handlers; unfold_m.
  destruct (req_body req) as [[|em pw]|]; simpl; try discriminate.
  destruct em as [| |a|n]; simpl; try discriminate.
  destruct (find_user_by_email (db w) a) as [u|]; simpl.
  - destruct (bun_password_verify pw (hashedPassword u)) as [n|[|]]; simpl;
      try discriminate.
    destruct (hono_sign (login_payload env u) secret) as [n|tok'] eqn:Hs;
      simpl; try discriminate.
    intros [= <-]; simpl; intros [= <-]. exists u. assumption.
  - intros [= <-]; simpl; discriminate.
Qed.

End IssuanceFacts.

(** C8: the payload the login handler signs has [exp] equal to the clock in
    seconds plus 3600, strictly after the clock (read in seconds, and also
    read in milliseconds); every signing a login performs, and every token
    it answers with, is of such a payload. *)
Theorem issued_exp_is_in_the_future {rt : Runtime} (env : Env) (req : Request)
    (w : World) :
  (forall u, exp (login_payload env u) = unix_now env + 3600 /\
             unix_now env < exp (login_payload env u) /\
             date_now env < 1000 * exp (login_payload env u)) /\
  (forall s e, In (EvSign s e) (trace (world_after (login env req) w)) ->
               In (EvSign s e) (trace w) \/
               (e = unix_now env + 3600 /\ unix_now env < e)) /\
  (forall r tok,
     run (login env req) w = inr r ->
     body r = TokenBody "Login successful" tok ->
     exists u, hono_sign (login_payload env u) secret = inr tok /\
               unix_now env < exp (login_payload env u)).
Proof.
  assert (payload_exp : forall u, exp (login_payload env u) = unix_now env + 3600)
    by reflexivity.
  split; [|split].
  - intros u. rewrite payload_exp. unfold unix_now.
    repeat split; try lia.
    pose proof (Z.mul_div_le (date_now env) 1000 ltac:(lia)).
    pose proof (Z.mod_pos_bound (date_now env) 1000 ltac:(lia)).
    pose proof (Z.div_mod (date_now env) 1000 ltac:(lia)). lia.
  - intros s e Hin.
    destruct (proj2 (login_world env req w) s e Hin) as [H|(u & _ & ->)];
      [left; assumption | right].
    rewrite payload_exp. split; [reflexivity | lia].
  - intros r tok Hr Hb.
    destruct (login_token env req w r tok Hr Hb) as (u & Hs).
    exists u. split; [assumption|]. rewrite payload_exp. lia.
Qed.

Lemma issued_exp_is_in_the_future_witness :
  exp (login_payload Sample.env Sample.alice) = 1700003600 /\
  1700000000 < exp (login_payload Sample.env Sample.alice).
Proof.
  pose proof (proj1 (issued_exp_is_in_the_future (rt := Sample.runtime)
                       Sample.env Sample.not_json Sample.world)
                Sample.alice) as (H1 & H2 & _).
  split; [exact H1 | exact H2].
Defined.

(** ** Registration *)

Lemma find_snoc {A} (f : A -> bool) (l : list A) (x : A) :
  find f (l ++ [x])
  = match find f l with
    | Some y => Some y
    | None => if f x then Some x else None
    end.
Proof.
  induction l as [|a l IH]; simpl; [reflexivity|].
  destruct (f a); [reflexivity | exact IH].
Qed.

Section RegisterFacts.

Context {rt : Runtime}.
Variable env : Env.

Lemma register_not_json (req : Request) (w : World) :
  req_body req = None -> register env req w = (inl SyntaxError, w).
Proof. intros Hb. unfold_handlers; unfold_m. now rewrite Hb. Qed.

Lemma register_null_body (req : Request) (w : World) :
  req_body req = Some BodyNull -> register env req w = (inl TypeError, w).
Proof. intros Hb. unfold_handlers; unfold_m. now rewrite Hb. Qed.

Lemma register_hash_throws (req : Request) (w : World) em pw name :
  req_body req = Some (BodyObject em pw) ->
  bun_password_hash pw (salt env) = inl name ->
  register env req w
  = (inl (RuntimeError name),
     {| db := db w; trace := trace w ++ [EvHash pw] |}).
Proof.
  intros Hb Hh. unfold_handlers; unfold_m. rewrite Hb; simpl.
  now rewrite Hh.
Qed.

Lemma register_not_a_string (req : Request) (w : World) em pw h :
  req_body req = Some (BodyObject em pw) ->
  bun_password_hash pw (salt env) = inr h ->
  (forall e, em <> JString e) ->
  register env req w
  = (inl PrismaClientValidationError,
     {| db := db w; trace := trace w ++ [EvHash pw; EvCreate em h] |}).
Proof.
  intros Hb Hh Hem. unfold_handlers; unfold_m. rewrite Hb; simpl.
  rewrite Hh; simpl. rewrite <- app_assoc; simpl.
  destruct em as [| |e|n]; try reflexivity.
  now contradiction (Hem e).
Qed.

Lemma register_duplicate (req : Request) (w : World) e pw h u :
  req_body req = Some (BodyObject (JString e) pw) ->
  bun_password_hash pw (salt env) = inr h ->
  find_user_by_email (db w) e = Some u ->
  register env req w
  = (inr (c_json (MessageBody "Email already exists")),
     {| db := db w; trace := trace w ++ [EvHash pw; EvCreate (JString e) h] |}).
Proof.
  intros Hb Hh Hu. unfold_handlers; unfold_m. rewrite Hb; simpl.
  rewrite Hh; simpl. rewrite Hu; simpl. now rewrite <- app_assoc.
Qed.

Lemma register_fresh (req : Request) (w : World) e pw h :
  req_body req = Some (BodyObject (JString e) pw) ->
  bun_password_hash pw (salt env) = inr h ->
  find_user_by_email (db w) e = None ->
  register env req w
  = (inr (c_json (MessageBody "${user.email} created successfully")),
     {| db := {| users := users (db w) ++ [created_user env e h];
                 accounts := accounts (db w) ++ [created_account env] |};
        trace := trace w ++ [EvHash pw; EvCreate (JString e) h] |}).
Proof.
  intros Hb Hh Hu. unfold_handlers; unfold_m. rewrite Hb; simpl.
  rewrite Hh; simpl. rewrite Hu; simpl. now rewrite <- app_assoc.
Qed.

Lemma find_created_user (s : Store) (e h : string) :
  find_user_by_email s e = None ->
  find_user_by_email
    {| users := users s ++ [created_user env e h];
       accounts := accounts s ++ [created_account env] |} e
  = Some (created_user env e h).
Proof.
  unfold find_user_by_email; simpl. intros Hu.
  now rewrite find_snoc, Hu, String.eqb_refl.
Qed.

(** A registration answers through [c.json], or with an exception that is
    none of the framework's. *)
Lemma register_responds_200_or_500 (req : Request) (w : World) :
  status (respond (run (register env req) w)) = 200 \/
  status (respond (run (register env req) w)) = 500.
Proof.
  unfold run.
  destruct (req_body req) as [[|em pw]|] eqn:Hb.
  - rewrite (register_null_body req w Hb). now right.
  - destruct (bun_password_hash pw (salt env)) as [name|h] eqn:Hh.
    + rewrite (register_hash_throws req w em pw name Hb Hh). now right.
    + destruct em as [| |e|n];
        try (rewrite (register_not_a_string req w _ pw h Hb Hh);
             [now right | intros e; discriminate]).
      destruct (find_user_by_email (db w) e) as [u|] eqn:Hu.
      * rewrite (register_duplicate req w e pw h u Hb Hh Hu). now left.
      * rewrite (register_fresh req w e pw h Hb Hh Hu). now left.
  - rewrite (register_not_json req w Hb). now right.
Qed.

End RegisterFacts.

(** C2, as the code has it: for a registration whose password the hasher
    accepts, an email already in the store is answered 200 with message
    "Email already exists" and the store is left as it was; a fresh email is
    answered 200 with the message "${user.email} created successfully", that
    text as it stands, and the credential is stored.  The two differ in the
    message, not in the status. *)
Theorem register_duplicate_and_fresh {rt : Runtime} (env : Env) (req : Request)
    (w : World) (e : string) (pw : JsValue) (h : string) :
  req_body req = Some (BodyObject (JString e) pw) ->
  bun_password_hash pw (salt env) = inr h ->
  (forall u, find_user_by_email (db w) e = Some u ->
     respond (run (register env req) w)
     = {| status := 200; body := MessageBody "Email already exists" |} /\
     db (world_after (register env req) w) = db w) /\
  (find_user_by_email (db w) e = None ->
     respond (run (register env req) w)
     = {| status := 200;
          body := MessageBody "${user.email} created successfully" |} /\
     find_user_by_email (db (world_after (register env req) w)) e
     = Some (created_user env e h)).
Proof.
  intros Hb Hh. unfold run, world_after. split.
  - intros u Hu. rewrite (register_duplicate env req w e pw h u Hb Hh Hu).
    split; reflexivity.
  - intros Hu. rewrite (register_fresh env req w e pw h Hb Hh Hu).
    split; [reflexivity|]. simpl. now apply find_created_user.
Qed.

Lemma register_duplicate_and_fresh_witness :
  respond (run (register (rt := Sample.runtime) Sample.env
                  (Sample.post "a@b.com" "pw123456")) Sample.world)
  = {| status := 200; body := MessageBody "Email already exists" |} /\
  respond (run (register (rt := Sample.runtime) Sample.env
                  (Sample.post "c@b.com" "pw123456")) Sample.world)
  = {| status := 200;
       body := MessageBody "${user.email} created successfully" |}.
Proof.
  split.
  - apply (proj1 (register_duplicate_and_fresh (rt := Sample.runtime)
             Sample.env (Sample.post "a@b.com" "pw123456") Sample.world
             "a@b.com" (JString "pw123456") _ eq_refl eq_refl) Sample.alice).
    reflexivity.
  - apply (proj2 (register_duplicate_and_fresh (rt := Sample.runtime)
             Sample.env (Sample.post "c@b.com" "pw123456") Sample.world
             "c@b.com" (JString "pw123456") _ eq_refl eq_refl)).
    reflexivity.
Defined.

(** C2 as stated fails: registering an email that is already stored is
    answered 200, not 409, the same status as a fresh registration, which is
    not 201. *)
Lemma register_duplicate_is_not_409 :
  status (respond (run (register (rt := Sample.runtime) Sample.env
                          (Sample.post "a@b.com" "pw123456")) Sample.world))
  = 200 /\
  status (respond (run (register (rt := Sample.runtime) Sample.env
                          (Sample.post "a@b.com" "pw123456")) Sample.world))
  <> 409 /\
  status (respond (run (register (rt := Sample.runtime) Sample.env
                          (Sample.post "c@b.com" "pw123456")) Sample.world))
  = 200 /\
  status (respond (run (register (rt := Sample.runtime) Sample.env
                          (Sample.post "c@b.com" "pw123456")) Sample.world))
  <> 201.
Proof. repeat split; vm_compute; discriminate. Qed.

(** C6, as the code has it: the registration handler checks nothing about
    the shape of its input and never answers 400.  Once the body is parsed to
    an object, [body.password] goes to the hasher as it is, and once the
    hasher returns, [body.email] goes to the store as it is; an empty email
    with a password the hasher accepts is stored and answered 200, like any
    email not yet stored.  A body that is not JSON or is [null], a password
    the hasher throws on, and an email that is not a string leave the store
    as it was and end in that exception, which the handler throws again
    (500); an email already stored is answered 200 "Email already
    exists". *)
Theorem register_checks_no_shape {rt : Runtime} (env : Env) (req : Request)
    (w : World) :
  status (respond (run (register env req) w)) <> 400 /\
  (forall em pw, req_body req = Some (BodyObject em pw) ->
     exists rest,
       trace (world_after (register env req) w)
       = (trace w ++ EvHash pw :: rest)%list) /\
  (forall em pw h, req_body req = Some (BodyObject em pw) ->
     bun_password_hash pw (salt env) = inr h ->
     trace (world_after (register env req) w)
     = (trace w ++ [EvHash pw; EvCreate em h])%list) /\
  (forall e pw h, req_body req = Some (BodyObject (JString e) pw) ->
     bun_password_hash pw (salt env) = inr h ->
     find_user_by_email (db w) e = None ->
     run (register env req) w
     = inr {| status := 200;
              body := MessageBody "${user.email} created successfully" |} /\
     find_user_by_email (db (world_after (register env req) w)) e
     = Some (created_user env e h)) /\
  (forall pw h, req_body req = Some (BodyObject (JString "") pw) ->
     bun_password_hash pw (salt env) = inr h ->
     find_user_by_email (db w) "" = None ->
     respond (run (register env req) w)
     = {| status := 200;
          body := MessageBody "${user.email} created successfully" |} /\
     find_user_by_email (db (world_after (register env req) w)) ""
     = Some (created_user env "" h)) /\
  (forall e pw h u, req_body req = Some (BodyObject (JString e) pw) ->
     bun_password_hash pw (salt env) = inr h ->
     find_user_by_email (db w) e = Some u ->
     run (register env req) w
     = inr {| status := 200; body := MessageBody "Email already exists" |} /\
     db (world_after (register env req) w) = db w) /\
  (req_body req = None ->
   register env req w = (inl SyntaxError, w) /\
   status (respond (run (register env req) w)) = 500) /\
  (req_body req = Some BodyNull ->
   register env req w = (inl TypeError, w) /\
   status (respond (run (register env req) w)) = 500) /\
  (forall em pw name, req_body req = Some (BodyObject em pw) ->
     bun_password_hash pw (salt env) = inl name ->
     run (register env req) w = inl (RuntimeError name) /\
     world_after (register env req) w
     = {| db := db w; trace := trace w ++ [EvHash pw] |} /\
     status (respond (run (register env req) w)) = 500) /\
  (forall em pw h, req_body req = Some (BodyObject em pw) ->
     bun_password_hash pw (salt env) = inr h ->
     (forall e, em <> JString e) ->
     run (register env req) w = inl PrismaClientValidationError /\
     db (world_after (register env req) w) = db w /\
     status (respond (run (register env req) w)) = 500) /\
  (status (respond (run (register env req) w)) = 200 \/
   status (respond (run (register env req) w)) = 500).
Proof.
  assert (trace_after : forall em pw h,
            req_body req = Some (BodyObject em pw) ->
            bun_password_hash pw (salt env) = inr h ->
            trace (world_after (register env req) w)
            = (trace w ++ [EvHash pw; EvCreate em h])%list).
  { intros em pw h Hb Hh. unfold world_after.
    destruct em as [| |e|n];
      try (rewrite (register_not_a_string env req w _ pw h Hb Hh);
           [reflexivity | intros e; discriminate]).
    destruct (find_user_by_email (db w) e) as [u|] eqn:Hu.
    - now rewrite (register_duplicate env req w e pw h u Hb Hh Hu).
    - now rewrite (register_fresh env req w e pw h Hb Hh Hu). }
  assert (fresh : forall e pw h,
            req_body req = Some (BodyObject (JString e) pw) ->
            bun_password_hash pw (salt env) = inr h ->
            find_user_by_email (db w) e = None ->
            run (register env req) w
            = inr {| status := 200;
                     body := MessageBody
                               "${user.email} created successfully" |} /\
            find_user_by_email (db (world_after (register env req) w)) e
            = Some (created_user env e h)).
  { intros e pw h Hb Hh Hu. unfold run, world_after.
    rewrite (register_fresh env req w e pw h Hb Hh Hu).
    split; [reflexivity|]. simpl. now apply find_created_user. }
  repeat match goal with |- _ /\ _ => split end.
  - destruct (register_responds_200_or_500 env req w) as [H|H]; rewrite H; lia.
  - intros em pw Hb.
    destruct (bun_password_hash pw (salt env)) as [name|h] eqn:Hh.
    + exists []. unfold world_after.
      now rewrite (register_hash_throws env req w em pw name Hb Hh).
    + exists [EvCreate em h]. now apply trace_after.
  - exact trace_after.
  - exact fresh.
  - intros pw h Hb Hh Hu. destruct (fresh "" pw h Hb Hh Hu) as [Hrun Hfind].
    split; [now rewrite Hrun | exact Hfind].
  - intros e pw h u Hb Hh Hu. unfold run, world_after.
    rewrite (register_duplicate env req w e pw h u Hb Hh Hu).
    split; reflexivity.
  - intros Hb. unfold run. rewrite (register_not_json env req w Hb).
    split; reflexivity.
  - intros Hb. unfold run. rewrite (register_null_body env req w Hb).
    split; reflexivity.
  - intros em pw name Hb Hh. unfold run, world_after.
    rewrite (register_hash_throws env req w em pw name Hb Hh).
    repeat split.
  - intros em pw h Hb Hh Hem. unfold run, world_after.
    rewrite (register_not_a_string env req w em pw h Hb Hh Hem).
    repeat split.
  - apply register_responds_200_or_500.
Qed.

Lemma register_checks_no_shape_witness :
  respond (run (register (rt := Sample.runtime) Sample.env
                  (Sample.post "" "pw123456")) Sample.world)
  = {| status := 200;
       body := MessageBody "${user.email} created successfully" |} /\
  run (register (rt := Sample.runtime) Sample.env
         {| req_body := Some (BodyObject (JString "c@b.com") JUndefined);
            req_authorization := None |}) Sample.world
  = inl (RuntimeError "password must be a string").
Proof.
  split.
  - apply (proj1 (proj2 (proj2 (proj2 (proj2
      (register_checks_no_shape (rt := Sample.runtime) Sample.env
         (Sample.post "" "pw123456") Sample.world)))))
      (JString "pw123456") _ eq_refl eq_refl eq_refl).
  - apply (proj1 (proj2 (proj2 (proj2 (proj2 (proj2 (proj2 (proj2 (proj2
      (register_checks_no_shape (rt := Sample.runtime) Sample.env
         {| req_body := Some (BodyObject (JString "c@b.com") JUndefined);
            req_authorization := None |} Sample.world)))))))))
      (JString "c@b.com") JUndefined "password must be a string"
      eq_refl eq_refl).
Defined.

(** C6 as stated fails: an empty email is hashed for, stored and answered
    200; a missing password is answered 500; neither is answered 400. *)
Lemma register_empty_email_is_not_400 :
  respond (run (register (rt := Sample.runtime) Sample.env
                  (Sample.post "" "pw123456")) Sample.world)
  = {| status := 200;
       body := MessageBody "${user.email} created successfully" |} /\
  trace (world_after (register (rt := Sample.runtime) Sample.env
                        (Sample.post "" "pw123456")) Sample.world)
  = [EvHash (JString "pw123456");
     EvCreate (JString "")
       ("$2b$04$s4lt$" ++ Sample.digest "s4lt" "pw123456")%string] /\
  map email (users (db (world_after
                          (register (rt := Sample.runtime) Sample.env
                             (Sample.post "" "pw123456")) Sample.world)))
  = ["a@b.com"; ""] /\
  status (respond (run (register (rt := Sample.runtime) Sample.env
                          {| req_body := Some (BodyObject (JString "c@b.com")
                                                          JUndefined);
                             req_authorization := None |}) Sample.world))
  = 500.
Proof. repeat split. Qed.

(** ** Password and hash stay out of the answers *)




Section Secrecy.

Context {rt : Runtime}.
Variable env : Env.





Lemma register_without_hash_stores_nothing (req : Request) (w : World) :
  (forall em pw h, req_body req = Some (BodyObject em pw) ->
                   bun_password_hash pw (salt env) <> inr h) ->
  db (world_after (register env req) w) = db w.
Proof.
  intros Hno. unfold world_after.
  destruct (req_body req) as [[|em pw]|] eqn:Hb.
  - now rewrite (register_null_body env req w Hb).
  - destruct (bun_password_hash pw (salt env)) as [name|h] eqn:Hh.
    + now rewrite (register_hash_throws env req w em pw name Hb Hh).
    + now contradiction (Hno em pw h eq_refl).
  - now rewrite (register_not_json env req w Hb).
Qed.

End Secrecy.






(** * Further properties of the handlers *)

(** ** What a registration writes *)

(** The store after a registration: as it was, or one user and one account
    longer. *)
Lemma register_db_after {rt : Runtime} (env : Env) (req : Request) (w : World) :
  db (world_after (register env req) w) = db w \/
  exists e h,
    find_user_by_email (db w) e = None /\
    db (world_after (register env req) w)
    = {| users := users (db w) ++ [created_user env e h];
         accounts := accounts (db w) ++ [created_account env] |}.
Proof.
  destruct (req_body req) as [[|em pw]|] eqn:Hb.
  - left. apply register_without_hash_stores_nothing.
    intros em pw h Hb'. rewrite Hb in Hb'. discriminate.
  - destruct (bun_password_hash pw (salt env)) as [name|h] eqn:Hh.
    + left. apply register_without_hash_stores_nothing.
      intros em' pw' h' Hb'. rewrite Hb in Hb'. injection Hb' as <- <-.
      rewrite Hh. discriminate.
    + unfold world_after.
      destruct em as [| |e|n];
        try (left; rewrite (register_not_a_string env req w _ pw h Hb Hh);
             [reflexivity | intros e; discriminate]).
      destruct (find_user_by_email (db w) e) as [u|] eqn:Hu.
      * left. now rewrite (register_duplicate env req w e pw h u Hb Hh Hu).
      * right. exists e, h. split; [assumption|].
        now rewrite (register_fresh env req w e pw h Hb Hh Hu).
  - left. apply register_without_hash_stores_nothing.
    intros em pw h Hb'. rewrite Hb in Hb'. discriminate.
Qed.

(** A registration writes nothing, or exactly one user row and one account
    row with balance 0; it writes only when the email is a string not yet in
    the store and the hasher returned, and then it answers with the success
    message. *)
Theorem register_writes_once_or_nothing {rt : Runtime} (env : Env)
    (req : Request) (w : World) :
  db (world_after (register env req) w) = db w \/
  exists e pw h,
    req_body req = Some (BodyObject (JString e) pw) /\
    bun_password_hash pw (salt env) = inr h /\
    find_user_by_email (db w) e = None /\
    db (world_after (register env req) w)
    = {| users := users (db w) ++ [created_user env e h];
         accounts := accounts (db w) ++ [created_account env] |} /\
    run (register env req) w
    = inr {| status := 200;
             body := MessageBody "${user.email} created successfully" |}.
Proof.
  unfold run, world_after.
  destruct (req_body req) as [[|em pw]|] eqn:Hb.
  - left. now rewrite (register_null_body env req w Hb).
  - destruct (bun_password_hash pw (salt env)) as [name|h] eqn:Hh.
    + left. now rewrite (register_hash_throws env req w em pw name Hb Hh).
    + destruct em as [| |e|n];
        try (left; rewrite (register_not_a_string env req w _ pw h Hb Hh);
             [reflexivity | intros e; discriminate]).
      destruct (find_user_by_email (db w) e) as [u|] eqn:Hu.
      * left. now rewrite (register_duplicate env req w e pw h u Hb Hh Hu).
      * right. exists e, pw, h.
        rewrite (register_fresh env req w e pw h Hb Hh Hu).
        repeat split; assumption.
  - left. now rewrite (register_not_json env req w Hb).
Qed.

Lemma distinct_snoc (l : list string) (x : string) :
  distinct (l ++ [x]) = distinct l && negb (existsb (String.eqb x) l).
Proof.
  induction l as [|a l IH]; simpl; [reflexivity|].
  rewrite IH, existsb_app; simpl. rewrite (String.eqb_sym x a).
  destruct (String.eqb a x), (existsb (String.eqb a) l), (distinct l),
    (existsb (String.eqb x) l); reflexivity.
Qed.

Lemma find_user_by_email_none (s : Store) (e : string) :
  find_user_by_email s e = None ->
  existsb (String.eqb e) (map email (users s)) = false.
Proof.
  unfold find_user_by_email.
  induction (users s) as [|u l IH]; simpl; [reflexivity|].
  rewrite (String.eqb_sym e (email u)).
  destruct (String.eqb (email u) e); [discriminate | exact IH].
Qed.

(** The [@unique] constraint on [email] holds after a registration if it
    held before, whatever the request. *)
Theorem register_keeps_emails_unique {rt : Runtime} (env : Env) (req : Request)
    (w : World) :
  emails_unique (db w) = true ->
  emails_unique (db (world_after (register env req) w)) = true.
Proof.
  intros Hinv.
  destruct (register_db_after env req w) as [->|(e & h & Hu & ->)];
    [assumption|].
  unfold emails_unique in *; simpl.
  rewrite map_app; simpl. rewrite distinct_snoc, Hinv.
  now rewrite (find_user_by_email_none _ _ Hu).
Qed.

Lemma register_keeps_emails_unique_witness :
  emails_unique
    (db (world_after (register (rt := Sample.runtime) Sample.env
                        (Sample.post "c@b.com" "hunter22")) Sample.world))
  = true /\
  emails_unique
    (db (world_after (register (rt := Sample.runtime) Sample.env
                        (Sample.post "a@b.com" "hunter22")) Sample.world))
  = true.
Proof.
  split;
    apply (register_keeps_emails_unique (rt := Sample.runtime));
    reflexivity.
Defined.

Lemma owned_more_users (s : Store) (us : list User) (acs : list Account)
    (a : Account) :
  owned s a = true ->
  owned {| users := users s ++ us; accounts := acs |} a = true.
Proof.
  unfold owned; simpl. rewrite existsb_app. now intros ->.
Qed.

(** The relation from [Account.userId] to [User.id] holds after a
    registration if it held before: the account a registration creates
    belongs to the user it creates. *)
Theorem register_keeps_accounts_owned {rt : Runtime} (env : Env) (req : Request)
    (w : World) :
  accounts_owned (db w) = true ->
  accounts_owned (db (world_after (register env req) w)) = true.
Proof.
  intros Hinv.
  destruct (register_db_after env req w) as [->|(e & h & _ & ->)];
    [assumption|].
  unfold accounts_owned in *; simpl.
  rewrite forallb_app; simpl. apply andb_true_iff; split.
  - rewrite forallb_forall in *. intros a Ha.
    apply (owned_more_users (db w)). now apply Hinv.
  - unfold owned; simpl. rewrite existsb_app; simpl.
    now rewrite String.eqb_refl, orb_true_r.
Qed.

Lemma register_keeps_accounts_owned_witness :
  accounts_owned
    (db (world_after (register (rt := Sample.runtime) Sample.env
                        (Sample.post "c@b.com" "hunter22")) Sample.world))
  = true.
Proof.
  apply (register_keeps_accounts_owned (rt := Sample.runtime)); reflexivity.
Defined.

(** ** What a login does, step by step *)

Section LoginSteps.

Context {rt : Runtime}.
Variable env : Env.

(** The run of the login handler on a body with a string email. *)
Lemma login_runs (req : Request) (w : World) (e : string) (pw : JsValue) :
  req_body req = Some (BodyObject (JString e) pw) ->
  login env req w =
  match find_user_by_email (db w) e with
  | None =>
      (inr (c_json (MessageBody "User not found")),
       {| db := db w; trace := trace w ++ [EvFindByEmail (JString e)] |})
  | Some u =>
      match bun_password_verify pw (hashedPassword u) with
      | inr true =>
          match hono_sign (login_payload env u) secret with
          | inr tok =>
              (inr (c_json (TokenBody "Login successful" tok)),
               {| db := db w;
                  trace := trace w ++ [EvFindByEmail (JString e);
                                       EvVerify pw (hashedPassword u);
                                       EvSign (id u) (unix_now env + 3600)] |})
          | inl _ =>
              (inl (HTTPException 401 "Invalid credentials"),
               {| db := db w;
                  trace := trace w ++ [EvFindByEmail (JString e);
                                       EvVerify pw (hashedPassword u);
                                       EvSign (id u) (unix_now env + 3600)] |})
          end
      | _ =>
          (inl (HTTPException 401 "Invalid credentials"),
           {| db := db w;
              trace := trace w ++ [EvFindByEmail (JString e);
                                   EvVerify pw (hashedPassword u)] |})
      end
  end.
Proof.
  intros Hb. unfold_handlers; unfold_m. rewrite Hb; simpl.
  destruct (find_user_by_email (db w) e) as [u|]; simpl; [|reflexivity].
  destruct (bun_password_verify pw (hashedPassword u)) as [n|[|]]; simpl;
    rewrite <- ?app_assoc; simpl; try reflexivity.
  destruct (hono_sign (login_payload env u) secret) as [n|tok]; simpl;
    rewrite <- ?app_assoc; reflexivity.
Qed.

(** A body that gives no string email is answered by the [catch] clause. *)
Lemma login_without_email (req : Request) (w : World) :
  (forall e pw, req_body req <> Some (BodyObject (JString e) pw)) ->
  run (login env req) w = inl (HTTPException 401 "Invalid credentials").
Proof.
  intros Hb. unfold_handlers; unfold_m.
  destruct (req_body req) as [[|em pw]|]; simpl; try reflexivity.
  destruct em as [| |e|n]; simpl; try reflexivity.
  now contradiction (Hb e pw).
Qed.

End LoginSteps.

(** Where a token in a login answer comes from. *)
Lemma login_token_source {rt : Runtime} (env : Env) (req : Request) (w : World)
    (tok : string) :
  run (login env req) w
  = inr {| status := 200; body := TokenBody "Login successful" tok |} ->
  exists e pw u,
    req_body req = Some (BodyObject (JString e) pw) /\
    find_user_by_email (db w) e = Some u /\
    bun_password_verify pw (hashedPassword u) = inr true /\
    hono_sign (login_payload env u) secret = inr tok.
Proof.
  intros Hrun.
  destruct (req_body req) as [[|em pw]|] eqn:Hb;
    try (rewrite login_without_email in Hrun;
         [discriminate | intros e pw'; rewrite Hb; discriminate]).
  destruct em as [| |e|n];
    try (rewrite login_without_email in Hrun;
         [discriminate | intros e pw'; rewrite Hb; discriminate]).
  unfold run in Hrun. rewrite (login_runs env req w e pw Hb) in Hrun.
  destruct (find_user_by_email (db w) e) as [u|] eqn:Hu; [|discriminate].
  destruct (bun_password_verify pw (hashedPassword u)) as [n|[|]] eqn:Hv;
    try discriminate.
  destruct (hono_sign (login_payload env u) secret) as [n|tok'] eqn:Hs;
    [discriminate|].
  injection Hrun as <-. exists e, pw, u. repeat split; assumption.
Qed.

(** Login answers with a token exactly when the body carries a string email
    of a stored user, the password check against that user's stored hash
    returns true, and signing the payload of that user returns the token. *)
Theorem login_token_iff {rt : Runtime} (env : Env) (req : Request) (w : World)
    (tok : string) :
  run (login env req) w
  = inr {| status := 200; body := TokenBody "Login successful" tok |} <->
  exists e pw u,
    req_body req = Some (BodyObject (JString e) pw) /\
    find_user_by_email (db w) e = Some u /\
    bun_password_verify pw (hashedPassword u) = inr true /\
    hono_sign (login_payload env u) secret = inr tok.
Proof.
  split.
  - apply login_token_source.
  - intros (e & pw & u & Hb & Hu & Hv & Hs).
    unfold run. now rewrite (login_runs env req w e pw Hb), Hu, Hv, Hs.
Qed.

Lemma login_token_iff_witness :
  exists tok,
    run (login (rt := Sample.runtime) Sample.env
           (Sample.post "a@b.com" "pw123456")) Sample.world
    = inr {| status := 200; body := TokenBody "Login successful" tok |}.
Proof.
  eexists.
  apply (proj2 (login_token_iff (rt := Sample.runtime) Sample.env
                  (Sample.post "a@b.com" "pw123456") Sample.world _)).
  exists "a@b.com", (JString "pw123456"), Sample.alice.
  repeat split; reflexivity.
Defined.

(** For an email that is not stored the login handler looks the email up and
    does nothing else: no password check, no signing.  For a stored email it
    checks the password once, against the hash stored for that email, and
    signs only after the check returned true. *)
Theorem login_trace {rt : Runtime} (env : Env) (req : Request) (w : World)
    (e : string) (pw : JsValue) :
  req_body req = Some (BodyObject (JString e) pw) ->
  (find_user_by_email (db w) e = None ->
   trace (world_after (login env req) w)
   = (trace w ++ [EvFindByEmail (JString e)])%list) /\
  (forall u, find_user_by_email (db w) e = Some u ->
     exists rest,
       trace (world_after (login env req) w)
       = (trace w ++ EvFindByEmail (JString e)
                  :: EvVerify pw (hashedPassword u) :: rest)%list /\
       (rest = [] \/
        (rest = [EvSign (id u) (unix_now env + 3600)] /\
         bun_password_verify pw (hashedPassword u) = inr true))).
Proof.
  intros Hb. unfold world_after. rewrite (login_runs env req w e pw Hb).
  split.
  - now intros ->.
  - intros u ->.
    destruct (bun_password_verify pw (hashedPassword u)) as [n|[|]];
      try (exists []; split; [reflexivity | now left]).
    exists [EvSign (id u) (unix_now env + 3600)].
    destruct (hono_sign (login_payload env u) secret);
      (split; [reflexivity | right; split; reflexivity]).
Qed.

Lemma login_trace_witness :
  trace (world_after (login (rt := Sample.runtime) Sample.env
                        (Sample.post "ghost@b.com" "pw123456")) Sample.world)
  = [EvFindByEmail (JString "ghost@b.com")].
Proof.
  apply (proj1 (login_trace (rt := Sample.runtime) Sample.env
                  (Sample.post "ghost@b.com" "pw123456") Sample.world
                  "ghost@b.com" (JString "pw123456") eq_refl)).
  reflexivity.
Defined.

(** ** Registration followed by other requests *)

Section AfterRegister.

Context {rt : Runtime}.
Variables env : Env.
Variable req : Request.
Variable w : World.
Variables (e : string) (pw : JsValue) (h : string).
Hypothesis body_given : req_body req = Some (BodyObject (JString e) pw).
Hypothesis hash_returned : bun_password_hash pw (salt env) = inr h.
Hypothesis email_fresh : find_user_by_email (db w) e = None.

Lemma registered_db :
  db (world_after (register env req) w)
  = {| users := users (db w) ++ [created_user env e h];
       accounts := accounts (db w) ++ [created_account env] |}.
Proof.
  unfold world_after.
  now rewrite (register_fresh env req w e pw h body_given hash_returned
                 email_fresh).
Qed.

Lemma registered_user_found :
  find_user_by_email (db (world_after (register env req) w)) e
  = Some (created_user env e h).
Proof. rewrite registered_db. now apply find_created_user. Qed.

End AfterRegister.

(** After a registration that succeeded, a login with the same email is
    answered with a token as soon as the password check accepts the password
    against the hash just stored, and with 401 "Invalid credentials" when the
    check returns false. *)
Theorem login_after_register {rt : Runtime} (env env' : Env) (req : Request)
    (w : World) (e : string) (pw : JsValue) (h : string) :
  req_body req = Some (BodyObject (JString e) pw) ->
  bun_password_hash pw (salt env) = inr h ->
  find_user_by_email (db w) e = None ->
  (forall tok,
     bun_password_verify pw h = inr true ->
     hono_sign (login_payload env' (created_user env e h)) secret = inr tok ->
     run (login env' req) (world_after (register env req) w)
     = inr {| status := 200; body := TokenBody "Login successful" tok |}) /\
  (forall pw' auth,
     bun_password_verify pw' h = inr false ->
     respond (run (login env' {| req_body := Some (BodyObject (JString e) pw');
                                 req_authorization := auth |})
                  (world_after (register env req) w))
     = invalid_credentials).
Proof.
  intros Hb Hh Hu.
  pose proof (registered_user_found env req w e pw h Hb Hh Hu) as Hfound.
  split.
  - intros tok Hv Hs. unfold run.
    rewrite (login_runs env' req _ e pw Hb), Hfound. simpl hashedPassword.
    now rewrite Hv, Hs.
  - intros pw' auth Hv. unfold run.
    rewrite (login_runs env'
               {| req_body := Some (BodyObject (JString e) pw');
                  req_authorization := auth |} _ e pw' eq_refl), Hfound.
    simpl hashedPassword. now rewrite Hv.
Qed.

Lemma login_after_register_witness :
  exists tok,
    run (login (rt := Sample.runtime) Sample.env
           (Sample.post "c@b.com" "hunter22"))
        (world_after (register (rt := Sample.runtime) Sample.env
                        (Sample.post "c@b.com" "hunter22")) Sample.world)
    = inr {| status := 200; body := TokenBody "Login successful" tok |}.
Proof.
  eexists.
  apply (proj1 (login_after_register (rt := Sample.runtime) Sample.env
                  Sample.env (Sample.post "c@b.com" "hunter22") Sample.world
                  "c@b.com" (JString "hunter22") _ eq_refl eq_refl eq_refl));
    reflexivity.
Defined.

(** Registering an email a second time changes nothing: the answer is
    "Email already exists" and the hash stored by the first registration
    stays, whatever password the second one carries. *)
Theorem register_twice_keeps_first_hash {rt : Runtime} (env env2 : Env)
    (req req2 : Request) (w : World) (e : string) (pw pw2 : JsValue)
    (h h2 : string) :
  req_body req = Some (BodyObject (JString e) pw) ->
  req_body req2 = Some (BodyObject (JString e) pw2) ->
  bun_password_hash pw (salt env) = inr h ->
  bun_password_hash pw2 (salt env2) = inr h2 ->
  find_user_by_email (db w) e = None ->
  let w1 := world_after (register env req) w in
  respond (run (register env2 req2) w1)
  = {| status := 200; body := MessageBody "Email already exists" |} /\
  db (world_after (register env2 req2) w1) = db w1 /\
  find_user_by_email (db (world_after (register env2 req2) w1)) e
  = Some (created_user env e h).
Proof.
  intros Hb Hb2 Hh Hh2 Hu w1.
  pose proof (registered_user_found env req w e pw h Hb Hh Hu) as Hfound.
  fold w1 in Hfound.
  unfold run, world_after.
  rewrite (register_duplicate env2 req2 w1 e pw2 h2 _ Hb2 Hh2 Hfound).
  simpl. repeat split; try reflexivity. exact Hfound.
Qed.

Lemma register_twice_keeps_first_hash_witness :
  find_user_by_email
    (db (world_after (register (rt := Sample.runtime) Sample.env
                        (Sample.post "c@b.com" "other-pw"))
           (world_after (register (rt := Sample.runtime) Sample.env
                           (Sample.post "c@b.com" "hunter22")) Sample.world)))
    "c@b.com"
  = Some (created_user Sample.env "c@b.com"
            ("$2b$04$s4lt$" ++ Sample.digest "s4lt" "hunter22")).
Proof.
  apply (register_twice_keeps_first_hash (rt := Sample.runtime) Sample.env
           Sample.env (Sample.post "c@b.com" "hunter22")
           (Sample.post "c@b.com" "other-pw") Sample.world "c@b.com"
           (JString "hunter22") (JString "other-pw") _ _
           eq_refl eq_refl eq_refl eq_refl eq_refl).
Defined.

(** After a registration that succeeded, the balance handler, given a
    payload whose [sub] is the new user's id, shows exactly the one account
    created with the user, with balance 0, provided the generated id was not
    in use before, as a user id or as an account's [userId]. *)
Theorem balance_after_register {rt : Runtime} (env : Env) (req : Request)
    (w : World) (e : string) (pw : JsValue) (h : string) (payload : Claims) :
  req_body req = Some (BodyObject (JString e) pw) ->
  bun_password_hash pw (salt env) = inr h ->
  find_user_by_email (db w) e = None ->
  find_user_by_id (db w) (user_uuid env) = None ->
  accounts_of (db w) (user_uuid env) = [] ->
  sub payload = user_uuid env ->
  run (account_balance (Some payload)) (world_after (register env req) w)
  = inr {| status := 200;
           body := DataBody (Some [{| view_balance := 0;
                                      view_id := account_uuid env |}]) |}.
Proof.
  intros Hb Hh Hu Hid Hacc Hsub. unfold run.
  rewrite account_balance_runs, (registered_db env req w e pw h Hb Hh Hu).
  rewrite Hsub. unfold find_user_by_id in *; simpl.
  rewrite find_snoc, Hid; simpl. rewrite String.eqb_refl.
  unfold accounts_of in *; simpl.
  rewrite filter_app, map_app, Hacc; simpl.
  now rewrite String.eqb_refl.
Qed.

Lemma balance_after_register_witness :
  run (account_balance (Some {| sub := "u-1"; exp := 1700003600 |}))
      (world_after (register (rt := Sample.runtime) Sample.env
                      (Sample.post "c@b.com" "hunter22")) Sample.world)
  = inr {| status := 200;
           body := DataBody (Some [{| view_balance := 0;
                                      view_id := "a-1" |}]) |}.
Proof.
  apply (balance_after_register (rt := Sample.runtime) Sample.env
           (Sample.post "c@b.com" "hunter22") Sample.world "c@b.com"
           (JString "hunter22") _ {| sub := "u-1"; exp := 1700003600 |}
           eq_refl eq_refl eq_refl eq_refl eq_refl eq_refl).
Defined.

(** ** The balance route *)

(** The balance handler always answers 200.  When no stored user has the
    payload's [sub] as id the data is [null]; otherwise the data lists
    exactly the accounts whose [userId] is that [sub], and no account of
    another user. *)
Theorem balance_shows_only_own_accounts (payload : Claims) (w : World) :
  exists data,
    run (account_balance (Some payload)) w
    = inr {| status := 200; body := DataBody data |} /\
    match data with
    | None => forall u, In u (users (db w)) -> id u <> sub payload
    | Some views =>
        (exists u, In u (users (db w)) /\ id u = sub payload) /\
        (forall v, In v views <->
                   exists a, In a (accounts (db w)) /\
                             userId a = sub payload /\ v = account_view a)
    end.
Proof.
  unfold run. rewrite account_balance_runs. simpl.
  eexists. split; [reflexivity|].
  unfold find_user_by_id.
  destruct (find (fun u => String.eqb (id u) (sub payload)) (users (db w)))
    as [u|] eqn:Hfind.
  - destruct (find_some _ _ Hfind) as [Hin Heq].
    apply String.eqb_eq in Heq. split; [now exists u|].
    intros v. unfold accounts_of. rewrite in_map_iff. split.
    + intros (a & <- & Ha). apply filter_In in Ha as [Ha Hown].
      apply String.eqb_eq in Hown. exists a.
      repeat split; [assumption | congruence].
    + intros (a & Ha & Hown & ->). exists a. split; [reflexivity|].
      apply filter_In. split; [assumption|].
      apply String.eqb_eq. congruence.
  - intros u Hin Heq.
    pose proof (find_none _ _ Hfind u Hin) as Hne. simpl in Hne.
    apply String.eqb_neq in Hne. contradiction.
Qed.

(** ** The lifetime of an issued token *)

(** Measured from the clock reading [Date.now()] at login, the [exp] the
    handler sets lies more than 3599 and at most 3600 seconds ahead; and a
    later clock never gives an earlier [exp]. *)
Theorem token_lifetime_bounds (env : Env) (u : User) :
  3599000 < 1000 * exp (login_payload env u) - date_now env <= 3600000 /\
  (forall env' u', date_now env <= date_now env' ->
                   exp (login_payload env u) <= exp (login_payload env' u')).
Proof.
  unfold login_payload; cbn [exp].
  change (60 * 60) with 3600.
  pose proof (Z.div_mod (date_now env) 1000 ltac:(lia)).
  pose proof (Z.mod_pos_bound (date_now env) 1000 ltac:(lia)).
  split; [lia|].
  intros env' u' Hle.
  pose proof (Z.div_le_mono (date_now env) (date_now env') 1000 ltac:(lia) Hle).
  lia.
Qed.

(** ** From login to the protected route *)

(** With the issuer as [sign], a token that login answered with is accepted
    by the gate of the protected route under the same secret for as long as
    the clock, in seconds, is before the login's clock plus 3600: the balance
    handler is then run with the payload login built.  From that second on
    the same token is answered 401 "Unauthorized". *)
Theorem login_token_opens_protected_route {tp : TokenPrimitives}
    (laws : TokenLaws)
    (hash : JsValue -> string -> string + string)
    (verify : JsValue -> string -> string + bool)
    (env : Env) (req : Request) (w : World) (tok : string) :
  run (login (rt := runtime_with_tokens hash verify) env req) w
  = inr {| status := 200; body := TokenBody "Login successful" tok |} ->
  exists e pw u,
    req_body req = Some (BodyObject (JString e) pw) /\
    find_user_by_email (db w) e = Some u /\
    forall env' req' w',
      req_authorization req' = Some ("Bearer " ++ tok)%string ->
      (unix_now env' < unix_now env + 3600 ->
       protected_account_balance env' req' w'
       = account_balance (Some (login_payload env u)) w') /\
      (unix_now env + 3600 <= unix_now env' ->
       protected_account_balance env' req' w'
       = (inl (HTTPException 401 "Unauthorized"), w')).
Proof.
  intros Hrun.
  apply (login_token_source (rt := runtime_with_tokens hash verify)) in Hrun
    as (e & pw & u & Hb & Hu & _ & Hs).
  simpl in Hs. injection Hs as <-.
  exists e, pw, u. split; [assumption|]. split; [assumption|].
  intros env' req' w' Hauth. split.
  - intros Hlt. apply protected_authorized. apply gate_authorized.
    eexists. split; [exact Hauth|].
    rewrite verify_token_signed.
    change (exp (login_payload env u)) with (unix_now env + 60 * 60).
    destruct (Z.leb_spec (unix_now env + 60 * 60) (unix_now env'));
      [lia | reflexivity].
  - intros Hle. apply protected_rejected.
    rewrite gate_cases, Hauth. unfold extract_bearer.
    rewrite strip_prefix_append, verify_token_signed.
    change (exp (login_payload env u)) with (unix_now env + 60 * 60).
    destruct (Z.leb_spec (unix_now env + 60 * 60) (unix_now env'));
      [reflexivity | lia].
Qed.

Lemma login_token_opens_protected_route_witness :
  exists tok,
    run (login (rt := Sample.runtime) Sample.env
           (Sample.post "a@b.com" "pw123456")) Sample.world
    = inr {| status := 200; body := TokenBody "Login successful" tok |} /\
    respond (run (protected_account_balance (tp := Sample.primitives)
                    Sample.env
                    (Sample.get (Some ("Bearer " ++ tok)%string)))
                 Sample.world)
    = {| status := 200;
         body := DataBody (Some [{| view_balance := 25;
                                    view_id := "a-0" |}]) |}.
Proof.
  eexists. split; [reflexivity|].
  destruct (login_token_opens_protected_route (tp := Sample.primitives)
              sample_laws Sample.hash Sample.verify Sample.env
              (Sample.post "a@b.com" "pw123456") Sample.world _ eq_refl)
    as (e & pw & u & Hb & Hu & Hopen).
  injection Hb as <- <-. injection Hu as <-.
  unfold run.
  rewrite (proj1 (Hopen Sample.env
                    (Sample.get (Some ("Bearer " ++ _)%string))
                    Sample.world eq_refl) eq_refl).
  reflexivity.
Defined.

(** * Properties of the likes controller *)

(** ** Arrays: [find], [findIndex] and [splice] *)

Lemma find_splits {A} (p : A -> bool) (l : list A) (x : A) :
  find p l = Some x ->
  exists before after,
    l = (before ++ x :: after)%list /\
    forallb (fun y => negb (p y)) before = true /\
    p x = true /\ Likes.findIndex p l = Z.of_nat (length before).
Proof.
  induction l as [|a l IH]; simpl; [discriminate|].
  destruct (p a) eqn:Hp.
  - intros [= ->]. exists [], l. repeat split; assumption.
  - intros Hfind. destruct (IH Hfind) as (before & after & -> & Hb & Hx & Hi).
    exists (a :: before), after. simpl. rewrite Hp, Hb, Hi.
    repeat split; try assumption.
    destruct (Z.of_nat (length before)) eqn:Hlen; try lia.
Qed.

Lemma splice1_at {A} (before after : list A) (x : A) :
  Likes.splice1 (Z.of_nat (length before)) (before ++ x :: after)%list
  = (before ++ after)%list.
Proof.
  unfold Likes.splice1.
  destruct (Z.ltb_spec (Z.of_nat (length before)) 0) as [Hneg|_]; [lia|].
  rewrite length_app; simpl.
  rewrite Z.min_l by lia. rewrite Nat2Z.id.
  rewrite firstn_app, Nat.sub_diag, firstn_all; simpl. rewrite app_nil_r.
  rewrite skipn_app, skipn_all2 by lia.
  replace (length before + 1 - length before)%nat with 1%nat by lia.
  reflexivity.
Qed.

Lemma toString_inj (n m : nat) : Likes.toString n = Likes.toString m -> n = m.
Proof.
  unfold Likes.toString. intros H.
  apply DecimalNat.Unsigned.to_uint_inj.
  pose proof (DecimalString.NilEmpty.usu (Nat.to_uint n)) as Hn.
  rewrite H, DecimalString.NilEmpty.usu in Hn. now injection Hn.
Qed.

(** ** Creating and deleting *)

Section LikesFacts.

Variable users : list Likes.User.
Variable posts : list Likes.Post.
Variable today : string.
Variable cannot_read : string.

(** What a successful [createLike] did. *)
Lemma createLike_responded (req : Likes.Request) (likes likes' : list Likes.Like)
    (r : Likes.Response) :
  Likes.createLike users posts today req likes = (Likes.Responded r, likes') ->
  exists uid pid user post,
    Likes.x_user_id req = Some uid /\ uid <> "" /\
    Likes.find_user users uid = Some user /\
    Likes.body_post_id req = JString pid /\
    Likes.find_post posts pid = Some post /\
    r = {| Likes.status := 201;
           Likes.json := Likes.Success (Likes.DataLike
             {| Likes.id := Likes.toString (length likes + 1);
                Likes.user_id := uid; Likes.post_id := pid;
                Likes.created_at := today |}) |} /\
    likes' = (likes ++ [{| Likes.id := Likes.toString (length likes + 1);
                           Likes.user_id := uid; Likes.post_id := pid;
                           Likes.created_at := today |}])%list.
Proof.
  unfold Likes.createLike.
  destruct (Likes.x_user_id req) as [uid|]; [|discriminate].
  destruct (String.eqb_spec uid "") as [|Hne]; [discriminate|].
  destruct (Likes.find_user users uid) as [user|] eqn:Hu; [|discriminate].
  destruct (Likes.body_post_id req) as [| |pid|n]; try discriminate.
  destruct (Likes.find_post posts pid) as [post|] eqn:Hp; [|discriminate].
  intros [= <- <-]. exists uid, pid, user, post. repeat split; assumption.
Qed.

(** What a successful [deleteLike] did. *)
Lemma deleteLike_responded (req : Likes.Request) (likes likes' : list Likes.Like)
    (r : Likes.Response) :
  Likes.deleteLike req likes = (Likes.Responded r, likes') ->
  exists uid before like after,
    Likes.x_user_id req = Some uid /\ uid <> "" /\
    likes = (before ++ like :: after)%list /\
    forallb (fun l => negb (String.eqb (Likes.id l) (Likes.params_id req)))
            before = true /\
    Likes.id like = Likes.params_id req /\
    Likes.user_id like = uid /\
    r = {| Likes.status := 200; Likes.json := Likes.Success Likes.DataEmpty |} /\
    likes' = (before ++ after)%list.
Proof.
  unfold Likes.deleteLike.
  destruct (Likes.x_user_id req) as [uid|]; [|discriminate].
  destruct (String.eqb_spec uid "") as [|Hne]; [discriminate|].
  destruct (Likes.find_like (Likes.params_id req) likes) as [like|] eqn:Hfind;
    [|discriminate].
  destruct (String.eqb_spec (Likes.user_id like) uid) as [Hown|]; simpl;
    [|discriminate].
  destruct (find_splits _ _ _ Hfind) as (before & after & -> & Hb & Hx & Hi).
  rewrite Hi, splice1_at. intros [= <- <-].
  exists uid, before, like, after.
  apply String.eqb_eq in Hx. repeat split; assumption.
Qed.

End LikesFacts.

(** [createLike] leaves the array as it was unless it answers. *)
Lemma createLike_appends_or_refuses_aux (users : list Likes.User)
    (posts : list Likes.Post) (today : string) (req : Likes.Request)
    (likes : list Likes.Like) :
  snd (Likes.createLike users posts today req likes) = likes \/
  exists r, fst (Likes.createLike users posts today req likes)
            = Likes.Responded r.
Proof.
  unfold Likes.createLike.
  destruct (Likes.x_user_id req) as [uid|]; [|now left].
  destruct (String.eqb uid ""); [now left|].
  destruct (Likes.find_user users uid); [|now left].
  destruct (Likes.body_post_id req) as [| |pid|n]; try now left.
  destruct (Likes.find_post posts pid); [|now left].
  right. eexists. reflexivity.
Qed.

(** [createLike] either refuses with 401 or 404 and leaves the array as it
    was, or appends exactly one like and answers 201 with it: its id is the
    old length plus one in decimal, its [user_id] is the [X-User-Id] header
    taken as it is, which must be the id of a user, and its [post_id] is
    [req.body.post_id], which must be the id of a post. *)
Theorem createLike_appends_or_refuses (users : list Likes.User)
    (posts : list Likes.Post) (today : string) (req : Likes.Request)
    (likes : list Likes.Like) :
  (snd (Likes.createLike users posts today req likes) = likes /\
   exists msg code,
     fst (Likes.createLike users posts today req likes)
     = Likes.Next (Likes.ErrorResponse msg code) /\
     (code = 401 \/ code = 404)) \/
  (exists uid pid user post,
     Likes.x_user_id req = Some uid /\ uid <> "" /\
     Likes.find_user users uid = Some user /\
     Likes.body_post_id req = JString pid /\
     Likes.find_post posts pid = Some post /\
     Likes.createLike users posts today req likes
     = (Likes.Responded
          {| Likes.status := 201;
             Likes.json := Likes.Success (Likes.DataLike
               {| Likes.id := Likes.toString (length likes + 1);
                  Likes.user_id := uid; Likes.post_id := pid;
                  Likes.created_at := today |}) |},
        (likes ++ [{| Likes.id := Likes.toString (length likes + 1);
                      Likes.user_id := uid; Likes.post_id := pid;
                      Likes.created_at := today |}])%list)).
Proof.
  unfold Likes.createLike.
  destruct (Likes.x_user_id req) as [uid|];
    [|left; simpl; split; [reflexivity | eexists _, _; split;
                                          [reflexivity | now left]]].
  destruct (String.eqb_spec uid "") as [|Hne];
    [left; simpl; split; [reflexivity | eexists _, _; split;
                                          [reflexivity | now left]]|].
  destruct (Likes.find_user users uid) as [user|] eqn:Hu;
    [|left; simpl; split; [reflexivity | eexists _, _; split;
                                          [reflexivity | now right]]].
  destruct (Likes.body_post_id req) as [| |pid|n];
    try (left; simpl; split; [reflexivity | eexists _, _; split;
                                              [reflexivity | now right]]).
  destruct (Likes.find_post posts pid) as [post|] eqn:Hp;
    [|left; simpl; split; [reflexivity | eexists _, _; split;
                                          [reflexivity | now right]]].
  right. exists uid, pid, user, post. repeat split; assumption.
Qed.

(** [deleteLike] either refuses with 401 or 404 and leaves the array as it
    was, or removes exactly one like and answers 200: the first like whose id
    is [req.params.id], and only when its [user_id] is the [X-User-Id]
    header; the likes before and after it stay, in order. *)
Theorem deleteLike_removes_first_match_of_owner (req : Likes.Request)
    (likes : list Likes.Like) :
  (snd (Likes.deleteLike req likes) = likes /\
   exists msg code,
     fst (Likes.deleteLike req likes)
     = Likes.Next (Likes.ErrorResponse msg code) /\
     (code = 401 \/ code = 404)) \/
  (exists uid before like after,
     Likes.x_user_id req = Some uid /\ uid <> "" /\
     likes = (before ++ like :: after)%list /\
     forallb (fun l => negb (String.eqb (Likes.id l) (Likes.params_id req)))
             before = true /\
     Likes.id like = Likes.params_id req /\
     Likes.user_id like = uid /\
     Likes.deleteLike req likes
     = (Likes.Responded {| Likes.status := 200;
                           Likes.json := Likes.Success Likes.DataEmpty |},
        (before ++ after)%list)).
Proof.
  destruct (Likes.deleteLike req likes) as [[r|err|err] likes'] eqn:Hrun.
  - right.
    destruct (deleteLike_responded req likes likes' r Hrun)
      as (uid & before & like & after & Hu & Hne & Hl & Hb & Hid & Hown
          & -> & ->).
    exists uid, before, like, after. repeat split; assumption.
  - left. revert Hrun. unfold Likes.deleteLike.
    destruct (Likes.x_user_id req) as [uid|];
      [|intros [= <- <-]; split; [reflexivity | eexists _, _; split;
                                    [reflexivity | now left]]].
    destruct (String.eqb uid "");
      [intros [= <- <-]; split; [reflexivity | eexists _, _; split;
                                   [reflexivity | now left]]|].
    destruct (Likes.find_like (Likes.params_id req) likes) as [like|];
      [|intros [= <- <-]; split; [reflexivity | eexists _, _; split;
                                    [reflexivity | now right]]].
    destruct (negb (String.eqb (Likes.user_id like) uid));
      [intros [= <- <-]; split; [reflexivity | eexists _, _; split;
                                   [reflexivity | now left]]
      | discriminate].
  - exfalso. revert Hrun. unfold Likes.deleteLike.
    destruct (Likes.x_user_id req) as [uid|]; [|discriminate].
    destruct (String.eqb uid ""); [discriminate|].
    destruct (Likes.find_like (Likes.params_id req) likes) as [like|];
      [|discriminate].
    destruct (negb (String.eqb (Likes.user_id like) uid)); discriminate.
Qed.

(** ** Ids in sequence *)

Lemma ids_from_app (k : nat) (l1 l2 : list Likes.Like) :
  Likes.ids_from k (l1 ++ l2)
  = Likes.ids_from k l1 && Likes.ids_from (k + length l1) l2.
Proof.
  revert k; induction l1 as [|a l1 IH]; intros k; simpl.
  - now rewrite Nat.add_0_r.
  - rewrite IH, andb_assoc. now replace (S k + length l1)%nat
      with (k + S (length l1))%nat by lia.
Qed.

(** In an array with ids in sequence from [k], only the ids [k], ...,
    [k + length - 1] are in use. *)
Lemma ids_from_unused (k m : nat) (likes : list Likes.Like) :
  Likes.ids_from k likes = true ->
  (m < k \/ k + length likes <= m)%nat ->
  Likes.find_like (Likes.toString m) likes = None.
Proof.
  revert k; induction likes as [|a likes IH]; intros k; simpl; [reflexivity|].
  intros [Ha Hrest]%andb_true_iff Hm. apply String.eqb_eq in Ha.
  destruct (String.eqb_spec (Likes.id a) (Likes.toString m)) as [Heq|_].
  - rewrite Ha in Heq. apply toString_inj in Heq. lia.
  - apply (IH (S k) Hrest). lia.
Qed.

Lemma find_like_app (lid : string) (l1 l2 : list Likes.Like) :
  Likes.find_like lid (l1 ++ l2)
  = match Likes.find_like lid l1 with
    | Some like => Some like
    | None => Likes.find_like lid l2
    end.
Proof.
  unfold Likes.find_like.
  induction l1 as [|a l1 IH]; simpl; [reflexivity|].
  destruct (String.eqb (Likes.id a) lid); [reflexivity | exact IH].
Qed.

(** In an array with ids in sequence from [k], the like at position [i] is
    the one found under the id [k + i]. *)
Lemma ids_from_found (k : nat) (before after : list Likes.Like)
    (like : Likes.Like) :
  Likes.ids_from k (before ++ like :: after) = true ->
  Likes.id like = Likes.toString (k + length before) /\
  Likes.find_like (Likes.toString (k + length before)) (before ++ like :: after)
  = Some like.
Proof.
  rewrite ids_from_app. simpl.
  intros [Hb [Hl Ha]%andb_true_iff]%andb_true_iff.
  apply String.eqb_eq in Hl. split; [assumption|].
  rewrite find_like_app, (ids_from_unused k _ before Hb) by lia.
  unfold Likes.find_like. simpl. now rewrite Hl, String.eqb_refl.
Qed.

(** As long as nothing is deleted, [createLike] keeps the ids in sequence,
    and the id it gives is not yet in use. *)
Theorem createLike_keeps_ids_in_sequence (users : list Likes.User)
    (posts : list Likes.Post) (today : string) (req : Likes.Request)
    (likes : list Likes.Like) :
  Likes.ids_in_sequence likes = true ->
  Likes.ids_in_sequence (snd (Likes.createLike users posts today req likes))
  = true /\
  Likes.find_like (Likes.toString (length likes + 1)) likes = None.
Proof.
  intros Hseq. split.
  - destruct (Likes.createLike users posts today req likes)
      as [[r|err|err] likes'] eqn:Hrun; simpl.
    + destruct (createLike_responded users posts today req likes likes' r Hrun)
        as (uid & pid & user & post & _ & _ & _ & _ & _ & _ & ->).
      unfold Likes.ids_in_sequence in *. rewrite ids_from_app, Hseq. simpl.
      now rewrite Nat.add_1_r, String.eqb_refl.
    + destruct (createLike_appends_or_refuses_aux users posts today req likes)
        as [Hsame|[r Hadd]]; rewrite Hrun in *; simpl in *;
        [now subst | discriminate].
    + destruct (createLike_appends_or_refuses_aux users posts today req likes)
        as [Hsame|[r Hadd]]; rewrite Hrun in *; simpl in *;
        [now subst | discriminate].
  - apply (ids_from_unused 1); [assumption | lia].
Qed.

Lemma createLike_keeps_ids_in_sequence_witness :
  Likes.ids_in_sequence
    (snd (Likes.createLike Likes.sample_users Likes.sample_posts "2025-01-01"
            (Likes.request (Some "2") "" (JString "2")) Likes.sample_likes))
  = true.
Proof.
  apply (createLike_keeps_ids_in_sequence Likes.sample_users
           Likes.sample_posts "2025-01-01"
           (Likes.request (Some "2") "" (JString "2")) Likes.sample_likes).
  reflexivity.
Defined.

(** ** Looking a like up *)

(** What the client of [GET /:id] is answered, through [asyncHandler] and
    [errorHandler]: 404 with the id in the message when no like has the id;
    500 when the like's user or post is missing from the arrays, the
    [TypeError] having no [statusCode]; 200 with the like, its user and its
    post otherwise.  The array is never changed. *)
Theorem getLike_answers (users : list Likes.User) (posts : list Likes.Post)
    (cannot_read : string) (req : Likes.Request) (likes : list Likes.Like) :
  snd (Likes.serve (Likes.getLike users posts cannot_read) req likes) = likes /\
  match Likes.find_like (Likes.params_id req) likes with
  | None =>
      fst (Likes.serve (Likes.getLike users posts cannot_read) req likes)
      = {| Likes.status := 404;
           Likes.json := Likes.Failure ("Like not found with id of "
                                        ++ Likes.params_id req) |}
  | Some like =>
      match Likes.find_user users (Likes.user_id like),
            Likes.find_post posts (Likes.post_id like) with
      | Some user, Some post =>
          fst (Likes.serve (Likes.getLike users posts cannot_read) req likes)
          = {| Likes.status := 200;
               Likes.json := Likes.Success (Likes.DataEnhanced like user post) |}
      | _, _ =>
          fst (Likes.serve (Likes.getLike users posts cannot_read) req likes)
          = {| Likes.status := 500;
               Likes.json := Likes.Failure
                 (if String.eqb cannot_read "" then "Server Error"
                  else cannot_read) |}
      end
  end.
Proof.
  unfold Likes.serve, Likes.asyncHandler, Likes.getLike.
  destruct (Likes.find_like (Likes.params_id req) likes) as [like|];
    [|split; reflexivity].
  destruct (Likes.find_user users (Likes.user_id like)) as [user|];
    [|split; reflexivity].
  destruct (Likes.find_post posts (Likes.post_id like)) as [post|];
    split; reflexivity.
Qed.

(** A like that [createLike] answered with is found by [GET /:id] under its
    id, with its user and its post, provided the id was not in use before. *)
Theorem getLike_after_createLike (users : list Likes.User)
    (posts : list Likes.Post) (today cannot_read : string)
    (req req' : Likes.Request) (likes likes' : list Likes.Like)
    (r : Likes.Response) :
  Likes.createLike users posts today req likes = (Likes.Responded r, likes') ->
  Likes.find_like (Likes.toString (length likes + 1)) likes = None ->
  Likes.params_id req' = Likes.toString (length likes + 1) ->
  exists like user post,
    r = {| Likes.status := 201;
           Likes.json := Likes.Success (Likes.DataLike like) |} /\
    Likes.id like = Likes.params_id req' /\
    Likes.serve (Likes.getLike users posts cannot_read) req' likes'
    = ({| Likes.status := 200;
          Likes.json := Likes.Success (Likes.DataEnhanced like user post) |},
       likes').
Proof.
  intros Hrun Hunused Hid.
  destruct (createLike_responded users posts today req likes likes' r Hrun)
    as (uid & pid & user & post & _ & _ & Hu & _ & Hp & -> & ->).
  eexists _, user, post. split; [reflexivity|]. split; [now rewrite Hid|].
  unfold Likes.serve, Likes.asyncHandler, Likes.getLike.
  rewrite Hid, find_like_app, Hunused.
  unfold Likes.find_like at 1. simpl. rewrite String.eqb_refl. simpl.
  now rewrite Hu, Hp.
Qed.

Lemma getLike_after_createLike_witness :
  exists like user post,
    {| Likes.status := 201;
       Likes.json := Likes.Success (Likes.DataLike
         {| Likes.id := "4"; Likes.user_id := "2"; Likes.post_id := "2";
            Likes.created_at := "2025-01-01" |}) |}
    = {| Likes.status := 201;
         Likes.json := Likes.Success (Likes.DataLike like) |} /\
    Likes.id like = "4" /\
    Likes.serve
      (Likes.getLike Likes.sample_users Likes.sample_posts "undefined")
      (Likes.request None "4" JUndefined)
      (snd (Likes.createLike Likes.sample_users Likes.sample_posts
              "2025-01-01" (Likes.request (Some "2") "" (JString "2"))
              Likes.sample_likes))
    = ({| Likes.status := 200;
          Likes.json := Likes.Success (Likes.DataEnhanced like user post) |},
       snd (Likes.createLike Likes.sample_users Likes.sample_posts
              "2025-01-01" (Likes.request (Some "2") "" (JString "2"))
              Likes.sample_likes)).
Proof.
  apply (getLike_after_createLike Likes.sample_users Likes.sample_posts
           "2025-01-01" "undefined"
           (Likes.request (Some "2") "" (JString "2"))
           (Likes.request None "4" JUndefined) Likes.sample_likes);
    reflexivity.
Defined.

(** With ids in sequence, a like its owner deleted is no longer found: [GET
    /:id] with the deleted id answers 404. *)
Theorem getLike_after_deleteLike (users : list Likes.User)
    (posts : list Likes.Post) (cannot_read : string)
    (req req' : Likes.Request) (likes likes' : list Likes.Like)
    (r : Likes.Response) :
  Likes.ids_in_sequence likes = true ->
  Likes.deleteLike req likes = (Likes.Responded r, likes') ->
  Likes.params_id req' = Likes.params_id req ->
  Likes.serve (Likes.getLike users posts cannot_read) req' likes'
  = ({| Likes.status := 404;
        Likes.json := Likes.Failure ("Like not found with id of "
                                     ++ Likes.params_id req) |},
     likes').
Proof.
  intros Hseq Hrun Hid.
  destruct (deleteLike_responded req likes likes' r Hrun)
    as (uid & before & like & after & _ & _ & -> & _ & Hlike & _ & _ & ->).
  unfold Likes.ids_in_sequence in Hseq.
  destruct (ids_from_found 1 before after like Hseq) as [Hk _].
  rewrite ids_from_app in Hseq. simpl in Hseq.
  apply andb_true_iff in Hseq as [Hb [_ Ha]%andb_true_iff].
  assert (Hgone : Likes.find_like (Likes.params_id req') (before ++ after)
                  = None).
  { rewrite Hid, <- Hlike, Hk, find_like_app.
    rewrite (ids_from_unused 1 _ before Hb) by lia.
    apply (ids_from_unused (S (1 + length before)) _ after Ha). lia. }
  unfold Likes.serve, Likes.asyncHandler, Likes.getLike.
  rewrite Hgone, Hid. reflexivity.
Qed.

Lemma getLike_after_deleteLike_witness :
  Likes.serve
    (Likes.getLike Likes.sample_users Likes.sample_posts "undefined")
    (Likes.request None "1" JUndefined)
    (snd (Likes.deleteLike (Likes.request (Some "1") "1" JUndefined)
            Likes.sample_likes))
  = ({| Likes.status := 404;
        Likes.json := Likes.Failure "Like not found with id of 1" |},
     snd (Likes.deleteLike (Likes.request (Some "1") "1" JUndefined)
            Likes.sample_likes)).
Proof.
  apply (getLike_after_deleteLike Likes.sample_users Likes.sample_posts
           "undefined" (Likes.request (Some "1") "1" JUndefined)
           (Likes.request None "1" JUndefined) Likes.sample_likes _
           {| Likes.status := 200; Likes.json := Likes.Success Likes.DataEmpty |});
    reflexivity.
Defined.

(** ** Ids after a deletion *)

(** The id of a new like is the length of the array plus one, so it is an
    id already in use once a like other than the last was deleted: with ids
    in sequence before, a [createLike] after such a [deleteLike] gives the
    new like the id of the like that was last, and [find] by that id, as
    [GET /:id] and [DELETE /:id] do it, reaches that earlier like, not the
    new one. *)
Theorem createLike_after_deleteLike_reuses_id (users : list Likes.User)
    (posts : list Likes.Post) (today : string) (reqd reqc : Likes.Request)
    (likes likes1 likes2 : list Likes.Like) (r1 r2 : Likes.Response) :
  Likes.ids_in_sequence likes = true ->
  Likes.deleteLike reqd likes = (Likes.Responded r1, likes1) ->
  Likes.params_id reqd <> Likes.toString (length likes) ->
  Likes.createLike users posts today reqc likes1
  = (Likes.Responded r2, likes2) ->
  exists old new,
    In old likes1 /\ likes2 = (likes1 ++ [new])%list /\
    Likes.id new = Likes.toString (length likes) /\
    Likes.id old = Likes.id new /\
    Likes.find_like (Likes.id new) likes2 = Some old.
Proof.
  intros Hseq Hdel Hnotlast Hcre.
  destruct (deleteLike_responded reqd likes likes1 r1 Hdel)
    as (uid & before & like & after & _ & _ & -> & _ & Hlike & _ & _ & ->).
  destruct (createLike_responded users posts today reqc _ likes2 r2 Hcre)
    as (uid' & pid & user & post & _ & _ & _ & _ & _ & _ & ->).
  unfold Likes.ids_in_sequence in Hseq.
  destruct (ids_from_found 1 before after like Hseq) as [Hk _].
  assert (Hafter : after <> []).
  { intros ->. apply Hnotlast. rewrite <- Hlike, Hk. f_equal.
    rewrite length_app. simpl. lia. }
  destruct (exists_last Hafter) as (mid & last & ->).
  rewrite ids_from_app in Hseq. simpl in Hseq.
  apply andb_true_iff in Hseq as [Hb [_ Ha]%andb_true_iff].
  rewrite ids_from_app in Ha. simpl in Ha.
  apply andb_true_iff in Ha as [Hm [Hl _]%andb_true_iff].
  apply String.eqb_eq in Hl.
  assert (Hn : length (before ++ like :: mid ++ [last])
               = S (S (length before + length mid))).
  { rewrite length_app. simpl. rewrite length_app. simpl. lia. }
  assert (Hn1 : (length (before ++ mid ++ [last]) + 1)%nat
                = S (S (length before + length mid))).
  { rewrite !length_app. simpl. lia. }
  eexists last, _. split; [|split; [reflexivity|]].
  - apply in_or_app. right. apply in_or_app. right. now left.
  - simpl Likes.id. rewrite Hn, Hn1.
    split; [reflexivity|]. split; [exact Hl|].
    rewrite !find_like_app.
    rewrite (ids_from_unused 1 _ before Hb) by lia.
    rewrite (ids_from_unused _ _ mid Hm) by lia.
    unfold Likes.find_like at 1. simpl. now rewrite Hl, String.eqb_refl.
Qed.

Lemma createLike_after_deleteLike_reuses_id_witness :
  exists old new,
    In old (snd (Likes.deleteLike (Likes.request (Some "1") "1" JUndefined)
                   Likes.sample_likes)) /\
    snd (Likes.createLike Likes.sample_users Likes.sample_posts "2025-01-01"
           (Likes.request (Some "2") "" (JString "2"))
           (snd (Likes.deleteLike (Likes.request (Some "1") "1" JUndefined)
                   Likes.sample_likes)))
    = (snd (Likes.deleteLike (Likes.request (Some "1") "1" JUndefined)
              Likes.sample_likes) ++ [new])%list /\
    Likes.id new = "3" /\
    Likes.id old = Likes.id new /\
    Likes.find_like (Likes.id new)
      (snd (Likes.createLike Likes.sample_users Likes.sample_posts
              "2025-01-01" (Likes.request (Some "2") "" (JString "2"))
              (snd (Likes.deleteLike (Likes.request (Some "1") "1" JUndefined)
                      Likes.sample_likes))))
    = Some old.
Proof.
  apply (createLike_after_deleteLike_reuses_id Likes.sample_users
           Likes.sample_posts "2025-01-01"
           (Likes.request (Some "1") "1" JUndefined)
           (Likes.request (Some "2") "" (JString "2"))
           Likes.sample_likes _ _
           {| Likes.status := 200; Likes.json := Likes.Success Likes.DataEmpty |}
           {| Likes.status := 201;
              Likes.json := Likes.Success (Likes.DataLike
                {| Likes.id := "3"; Likes.user_id := "2"; Likes.post_id := "2";
                   Likes.created_at := "2025-01-01" |}) |});
    try reflexivity.
  vm_compute. discriminate.
Defined.

(** ** Pages *)

Lemma firstn_plus {A} (a b : nat) (l : list A) :
  firstn (a + b) l = (firstn a l ++ firstn b (skipn a l))%list.
Proof.
  revert l; induction a as [|a IH]; intros [|x l]; simpl;
    try reflexivity.
  - now rewrite firstn_nil.
  - now rewrite IH.
Qed.

(** [slice] between two indices of the array, the first not after the
    second, takes what [skipn] and [firstn] take. *)
Lemma slice_nonneg {A} (a b : nat) (l : list A) :
  (a <= b)%nat ->
  Likes.slice (Z.of_nat a) (Z.of_nat b) l = firstn (b - a) (skipn a l).
Proof.
  intros Hab. unfold Likes.slice. cbv zeta.
  destruct (Z.ltb_spec (Z.of_nat a) 0) as [|_]; [lia|].
  destruct (Z.ltb_spec (Z.of_nat b) 0) as [|_]; [lia|].
  destruct (Nat.le_gt_cases (length l) a) as [Hla|Hla].
  - replace (Z.to_nat (Z.min (Z.of_nat a) (Z.of_nat (length l))))
      with (length l) by lia.
    rewrite skipn_all, (skipn_all2 l Hla). now rewrite !firstn_nil.
  - replace (Z.to_nat (Z.min (Z.of_nat a) (Z.of_nat (length l))))
      with a by lia.
    destruct (Nat.le_gt_cases (length l) b) as [Hlb|Hlb].
    + rewrite !firstn_all2; [reflexivity | |]; rewrite length_skipn; lia.
    + f_equal. lia.
Qed.

Lemma ceil_div_bounds (a b : Z) :
  0 < b -> a <= Likes.ceil_div a b * b < a + b.
Proof.
  intros Hb. unfold Likes.ceil_div.
  pose proof (Z.div_mod (- a) b ltac:(lia)).
  pose proof (Z.mod_pos_bound (- a) b Hb). nia.
Qed.

Section Pages.

Variable users : list Likes.User.
Variable posts : list Likes.Post.
Variable cannot_read : string.

Lemma enhance_likes (results : list Likes.Like)
    (l : list (Likes.Like * Likes.User * Likes.Post)) :
  Likes.enhance users posts results = Some l ->
  map (fun t => fst (fst t)) l = results.
Proof.
  revert l; induction results as [|like rest IH]; intros l; simpl.
  - now intros [= <-].
  - destruct (Likes.find_user users (Likes.user_id like)); [|discriminate].
    destruct (Likes.find_post posts (Likes.post_id like)); [|discriminate].
    destruct (Likes.enhance users posts rest) as [l'|]; [|discriminate].
    intros [= <-]. simpl. now rewrite (IH l' eq_refl).
Qed.

(** The listing [getLikes] answers with, when it answers. *)
Lemma getLikes_responded (req : Likes.Request) (likes : list Likes.Like)
    (r : Likes.Response) :
  fst (Likes.getLikes users posts cannot_read req likes) = Likes.Responded r ->
  exists enhanced,
    Likes.enhance users posts
      (Likes.slice
         ((Likes.or_default (Likes.query_page req) 1 - 1)
          * Likes.or_default (Likes.query_limit req) 10)
         (Likes.or_default (Likes.query_page req) 1
          * Likes.or_default (Likes.query_limit req) 10) likes)
    = Some enhanced /\
    r = {| Likes.status := 200;
           Likes.json := Likes.SuccessList
             {| Likes.count := Z.of_nat (length enhanced);
                Likes.page := Likes.or_default (Likes.query_page req) 1;
                Likes.total_pages :=
                  Likes.ceil_div (Z.of_nat (length likes))
                    (Likes.or_default (Likes.query_limit req) 10);
                Likes.next :=
                  if Likes.or_default (Likes.query_page req) 1
                     * Likes.or_default (Likes.query_limit req) 10
                     <? Z.of_nat (length likes)
                  then Some {| Likes.ref_page :=
                                 Likes.or_default (Likes.query_page req) 1 + 1;
                               Likes.ref_limit :=
                                 Likes.or_default (Likes.query_limit req) 10 |}
                  else None;
                Likes.prev :=
                  if (Likes.or_default (Likes.query_page req) 1 - 1)
                     * Likes.or_default (Likes.query_limit req) 10 >? 0
                  then Some {| Likes.ref_page :=
                                 Likes.or_default (Likes.query_page req) 1 - 1;
                               Likes.ref_limit :=
                                 Likes.or_default (Likes.query_limit req) 10 |}
                  else None;
                Likes.data := enhanced |} |}.
Proof.
  unfold Likes.getLikes. cbv zeta.
  destruct (Likes.enhance users posts _) as [enhanced|] eqn:He; simpl;
    [|discriminate].
  intros [= <-]. exists enhanced. split; reflexivity.
Qed.

End Pages.

(** For a page and a limit of at least 1, [getLikes] lists the likes at
    positions [(page - 1) * limit] up to, not including, [page * limit] of
    the array, at most [limit] of them; [next] is set exactly when likes
    remain after the page, [prev] exactly when the page is not the first;
    and [total_pages] is the least number of pages of [limit] likes that
    hold the whole array.  A page or limit that is [NaN] or 0 counts as 1
    and 10. *)
Theorem getLikes_page (users : list Likes.User) (posts : list Likes.Post)
    (cannot_read : string) (req : Likes.Request) (likes : list Likes.Like)
    (r : Likes.Response) :
  let page := Likes.or_default (Likes.query_page req) 1 in
  let limit := Likes.or_default (Likes.query_limit req) 10 in
  let total := Z.of_nat (length likes) in
  1 <= page -> 1 <= limit ->
  Likes.exact page -> Likes.exact limit -> Likes.exact total ->
  fst (Likes.getLikes users posts cannot_read req likes) = Likes.Responded r ->
  exists lst,
    r = {| Likes.status := 200; Likes.json := Likes.SuccessList lst |} /\
    map (fun t => fst (fst t)) (Likes.data lst)
    = firstn (Z.to_nat limit) (skipn (Z.to_nat ((page - 1) * limit)) likes) /\
    Likes.count lst = Z.of_nat (length (Likes.data lst)) /\
    0 <= Likes.count lst <= limit /\
    Likes.page lst = page /\
    (page * limit < total ->
     Likes.next lst
     = Some {| Likes.ref_page := page + 1; Likes.ref_limit := limit |}) /\
    (total <= page * limit -> Likes.next lst = None) /\
    (1 < page ->
     Likes.prev lst
     = Some {| Likes.ref_page := page - 1; Likes.ref_limit := limit |}) /\
    (page = 1 -> Likes.prev lst = None) /\
    total <= Likes.total_pages lst * limit < total + limit.
Proof.
  intros page limit total Hpage Hlimit _ _ _ Hrun.
  destruct (getLikes_responded users posts cannot_read req likes r Hrun)
    as (enhanced & He & ->).
  fold page limit total in He |- *.
  eexists. split; [reflexivity|]. simpl.
  pose proof (enhance_likes users posts _ _ He) as Hdata.
  replace ((page - 1) * limit) with (Z.of_nat (Z.to_nat ((page - 1) * limit)))
    in Hdata by nia.
  replace (page * limit) with (Z.of_nat (Z.to_nat (page * limit)))
    in Hdata by nia.
  rewrite slice_nonneg in Hdata by nia.
  replace (Z.to_nat (page * limit) - Z.to_nat ((page - 1) * limit))%nat
    with (Z.to_nat limit) in Hdata by nia.
  split; [exact Hdata|]. split; [reflexivity|].
  assert (Hlen : length enhanced
                 = length (firstn (Z.to_nat limit)
                             (skipn (Z.to_nat ((page - 1) * limit)) likes)))
    by (now rewrite <- Hdata, length_map).
  rewrite length_firstn in Hlen.
  split; [lia|]. split; [reflexivity|].
  split; [|split; [|split; [|split]]].
  - intros H. destruct (Z.ltb_spec (page * limit) total); [reflexivity | lia].
  - intros H. destruct (Z.ltb_spec (page * limit) total); [lia | reflexivity].
  - intros H. destruct (Z.gtb_spec ((page - 1) * limit) 0); [reflexivity | nia].
  - intros H. destruct (Z.gtb_spec ((page - 1) * limit) 0); [nia | reflexivity].
  - apply ceil_div_bounds. lia.
Qed.

Lemma getLikes_page_witness :
  exists lst,
    fst (Likes.getLikes Likes.sample_users Likes.sample_posts "undefined"
           (Likes.listing (Some 2) (Some 2)) Likes.sample_likes)
    = Likes.Responded
        {| Likes.status := 200; Likes.json := Likes.SuccessList lst |} /\
    map (fun t => fst (fst t)) (Likes.data lst)
    = firstn 2 (skipn 2 Likes.sample_likes) /\
    Likes.prev lst
    = Some {| Likes.ref_page := 1; Likes.ref_limit := 2 |} /\
    Likes.next lst = None.
Proof.
  destruct (Likes.getLikes Likes.sample_users Likes.sample_posts "undefined"
              (Likes.listing (Some 2) (Some 2)) Likes.sample_likes)
    as [[r|err|err] likes'] eqn:Hrun; try discriminate.
  destruct (getLikes_page Likes.sample_users Likes.sample_posts "undefined"
              (Likes.listing (Some 2) (Some 2)) Likes.sample_likes r
              ltac:(vm_compute; discriminate) ltac:(vm_compute; discriminate)
              ltac:(split; vm_compute; discriminate)
              ltac:(split; vm_compute; discriminate)
              ltac:(split; vm_compute; discriminate)
              ltac:(now rewrite Hrun))
    as (lst & -> & Hdata & _ & _ & _ & _ & Hnext & Hprev & _).
  exists lst. repeat split.
  - exact Hdata.
  - apply Hprev. reflexivity.
  - apply Hnext. vm_compute. discriminate.
Defined.

Lemma pages_concat (likes : list Likes.Like) (m n : nat) :
  concat (map (fun p => Likes.slice ((Z.of_nat p - 1) * Z.of_nat m)
                                    (Z.of_nat p * Z.of_nat m) likes)
              (seq 1 n))
  = firstn (n * m) likes.
Proof.
  induction n as [|n IH]; [reflexivity|].
  rewrite seq_S, map_app, concat_app, IH. cbn [map concat].
  rewrite app_nil_r.
  replace ((Z.of_nat (1 + n) - 1) * Z.of_nat m) with (Z.of_nat (n * m)) by nia.
  replace (Z.of_nat (1 + n) * Z.of_nat m) with (Z.of_nat (n * m + m)) by nia.
  rewrite slice_nonneg by lia.
  replace (n * m + m - n * m)%nat with m by lia.
  replace (S n * m)%nat with (n * m + m)%nat by lia.
  now rewrite firstn_plus.
Qed.

(** The slices between the indices of pages 1 to [ceil_div total limit], put
    one after the other, are the whole array; a later page's slice is
    empty. *)
Lemma slices_partition_the_array (likes : list Likes.Like) (limit : Z) :
  1 <= limit -> Likes.exact limit -> Likes.exact (Z.of_nat (length likes)) ->
  concat (map (fun p => Likes.slice ((Z.of_nat p - 1) * limit)
                                    (Z.of_nat p * limit) likes)
              (seq 1 (Z.to_nat (Likes.ceil_div (Z.of_nat (length likes))
                                               limit))))
  = likes /\
  (forall page,
     Likes.ceil_div (Z.of_nat (length likes)) limit < page ->
     Likes.slice ((page - 1) * limit) (page * limit) likes = []).
Proof.
  intros Hlimit _ _.
  assert (Hm : limit = Z.of_nat (Z.to_nat limit)) by lia.
  revert Hlimit Hm. generalize (Z.to_nat limit). intros m Hlimit ->.
  pose proof (ceil_div_bounds (Z.of_nat (length likes)) (Z.of_nat m)
                ltac:(lia)) as Hceil.
  split.
  - rewrite pages_concat. apply firstn_all2. nia.
  - intros page Hpage.
    replace ((page - 1) * Z.of_nat m)
      with (Z.of_nat (Z.to_nat ((page - 1) * Z.of_nat m))) by nia.
    replace (page * Z.of_nat m)
      with (Z.of_nat (Z.to_nat (page * Z.of_nat m))) by nia.
    rewrite slice_nonneg by nia.
    rewrite skipn_all2 by nia. apply firstn_nil.
Qed.

Section AllPages.

Variable users : list Likes.User.
Variable posts : list Likes.Post.
Variable cannot_read : string.

Lemma enhance_skipn (k : nat) (l : list Likes.Like)
    (e : list (Likes.Like * Likes.User * Likes.Post)) :
  Likes.enhance users posts l = Some e ->
  Likes.enhance users posts (skipn k l) = Some (skipn k e).
Proof.
  revert l e; induction k as [|k IH]; intros l e; [intros H; exact H|].
  destruct l as [|like rest]; simpl; [now intros [= <-]|].
  destruct (Likes.find_user users (Likes.user_id like)); [|discriminate].
  destruct (Likes.find_post posts (Likes.post_id like)); [|discriminate].
  destruct (Likes.enhance users posts rest) as [e'|] eqn:He; [|discriminate].
  intros [= <-]. simpl. now apply IH.
Qed.

Lemma enhance_firstn (n : nat) (l : list Likes.Like)
    (e : list (Likes.Like * Likes.User * Likes.Post)) :
  Likes.enhance users posts l = Some e ->
  Likes.enhance users posts (firstn n l) = Some (firstn n e).
Proof.
  revert l e; induction n as [|n IH]; intros l e.
  - intros _. reflexivity.
  - destruct l as [|like rest]; simpl; [now intros [= <-]|].
    destruct (Likes.find_user users (Likes.user_id like)); [|discriminate].
    destruct (Likes.find_post posts (Likes.post_id like)); [|discriminate].
    destruct (Likes.enhance users posts rest) as [e'|] eqn:He; [|discriminate].
    intros [= <-]. simpl. now rewrite (IH rest e' He).
Qed.

(** When every like has its user and its post, the likes a page lists are
    the slice of the array between the page's indices. *)
Lemma getLikes_lists_slice (likes : list Likes.Like) (page limit : Z)
    (e : list (Likes.Like * Likes.User * Likes.Post)) :
  Likes.enhance users posts likes = Some e ->
  1 <= page -> 1 <= limit ->
  listed_likes (Likes.getLikes users posts cannot_read
                  (Likes.listing (Some page) (Some limit)) likes)
  = Likes.slice ((page - 1) * limit) (page * limit) likes.
Proof.
  intros He Hpage Hlimit.
  unfold listed_likes, Likes.getLikes, Likes.listing. cbn [Likes.query_page
    Likes.query_limit].
  assert (Hp : Likes.or_default (Some page) 1 = page)
    by (destruct page; simpl; lia || reflexivity).
  assert (Hl : Likes.or_default (Some limit) 10 = limit)
    by (destruct limit; simpl; lia || reflexivity).
  rewrite Hp, Hl. cbv zeta.
  assert (Hs : exists e', Likes.enhance users posts
                 (Likes.slice ((page - 1) * limit) (page * limit) likes)
               = Some e').
  { unfold Likes.slice. cbv zeta. eexists.
    apply enhance_firstn, enhance_skipn, He. }
  destruct Hs as (e' & Hs). rewrite Hs. simpl.
  apply (enhance_likes users posts _ _ Hs).
Qed.

End AllPages.

(** When every like has its user and its post in the arrays, the likes that
    [getLikes] lists for pages 1 to [total_pages] with one limit of at least
    1, put one after the other, are the whole array, each like once and in
    order; every page answers with the same [total_pages]; and a page after
    [total_pages] lists nothing. *)
Theorem getLikes_pages_partition_the_array (users : list Likes.User)
    (posts : list Likes.Post) (cannot_read : string)
    (likes : list Likes.Like) (limit : Z)
    (e : list (Likes.Like * Likes.User * Likes.Post)) :
  1 <= limit -> Likes.exact limit -> Likes.exact (Z.of_nat (length likes)) ->
  Likes.enhance users posts likes = Some e ->
  concat (map (fun p => listed_likes
                          (Likes.getLikes users posts cannot_read
                             (Likes.listing (Some (Z.of_nat p)) (Some limit))
                             likes))
              (seq 1 (Z.to_nat (Likes.ceil_div (Z.of_nat (length likes))
                                               limit))))
  = likes /\
  (forall page r,
     1 <= page ->
     fst (Likes.getLikes users posts cannot_read
            (Likes.listing (Some page) (Some limit)) likes)
     = Likes.Responded r ->
     exists lst,
       Likes.json r = Likes.SuccessList lst /\
       Likes.total_pages lst
       = Likes.ceil_div (Z.of_nat (length likes)) limit) /\
  (forall page,
     Likes.ceil_div (Z.of_nat (length likes)) limit < page ->
     Likes.exact page ->
     listed_likes (Likes.getLikes users posts cannot_read
                     (Likes.listing (Some page) (Some limit)) likes)
     = []).
Proof.
  intros Hlimit Hel Het He.
  destruct (slices_partition_the_array likes limit Hlimit Hel Het)
    as [Hall Hpast].
  pose proof (ceil_div_bounds (Z.of_nat (length likes)) limit ltac:(lia))
    as Hceil.
  split; [|split].
  - rewrite <- Hall at 2. f_equal. apply map_ext_in.
    intros p Hp. apply in_seq in Hp.
    apply (getLikes_lists_slice users posts cannot_read likes _ limit e He);
      lia.
  - intros page r Hpage Hrun.
    destruct (getLikes_responded users posts cannot_read _ likes r Hrun)
      as (enhanced & _ & ->).
    eexists. split; [reflexivity|]. simpl.
    destruct limit; simpl; lia || reflexivity.
  - intros page Hpage _.
    rewrite (getLikes_lists_slice users posts cannot_read likes page limit e He)
      by nia.
    now apply Hpast.
Qed.

Lemma getLikes_pages_partition_the_array_witness :
  concat (map (fun p => listed_likes
                          (Likes.getLikes Likes.sample_users Likes.sample_posts
                             "undefined"
                             (Likes.listing (Some (Z.of_nat p)) (Some 2))
                             Likes.sample_likes))
              (seq 1 2))
  = Likes.sample_likes.
Proof.
  apply (proj1 (getLikes_pages_partition_the_array Likes.sample_users
                  Likes.sample_posts "undefined" Likes.sample_likes 2 _
                  ltac:(vm_compute; discriminate)
                  ltac:(split; vm_compute; discriminate)
                  ltac:(split; vm_compute; discriminate)
                  eq_refl)).
Defined.

(** A negative page is not refused: it is counted from the end of the
    array.  For a page of at most -1 and a limit of at least 1 with
    [(1 - page) * limit] likes or more in the array, [getLikes] lists the
    [limit] likes that start [(1 - page) * limit] before the end, answers
    with the negative page, sets [next] and leaves [prev] out. *)
Theorem getLikes_negative_page (users : list Likes.User)
    (posts : list Likes.Post) (cannot_read : string) (req : Likes.Request)
    (likes : list Likes.Like) (r : Likes.Response) :
  let page := Likes.or_default (Likes.query_page req) 1 in
  let limit := Likes.or_default (Likes.query_limit req) 10 in
  let total := Z.of_nat (length likes) in
  page <= -1 -> 1 <= limit -> (1 - page) * limit <= total ->
  Likes.exact page -> Likes.exact limit -> Likes.exact total ->
  fst (Likes.getLikes users posts cannot_read req likes) = Likes.Responded r ->
  exists lst,
    r = {| Likes.status := 200; Likes.json := Likes.SuccessList lst |} /\
    map (fun t => fst (fst t)) (Likes.data lst)
    = firstn (Z.to_nat limit)
        (skipn (Z.to_nat (total - (1 - page) * limit)) likes) /\
    Likes.count lst = limit /\
    Likes.page lst = page /\
    Likes.next lst
    = Some {| Likes.ref_page := page + 1; Likes.ref_limit := limit |} /\
    Likes.prev lst = None.
Proof.
  intros page limit total Hpage Hlimit Hfit _ _ _ Hrun.
  destruct (getLikes_responded users posts cannot_read req likes r Hrun)
    as (enhanced & He & ->).
  fold page limit total in He |- *.
  eexists. split; [reflexivity|]. simpl.
  pose proof (enhance_likes users posts _ _ He) as Hdata.
  unfold Likes.slice in Hdata. cbv zeta in Hdata. fold total in Hdata.
  destruct (Z.ltb_spec ((page - 1) * limit) 0) as [_|]; [|nia].
  destruct (Z.ltb_spec (page * limit) 0) as [_|]; [|nia].
  rewrite (Z.max_l (total + (page - 1) * limit)) in Hdata by nia.
  rewrite (Z.max_l (total + page * limit)) in Hdata by nia.
  replace (Z.to_nat (Z.max (total + page * limit
                            - (total + (page - 1) * limit)) 0))
    with (Z.to_nat limit) in Hdata by nia.
  replace (total + (page - 1) * limit) with (total - (1 - page) * limit)
    in Hdata by nia.
  split; [exact Hdata|].
  assert (Hlen : length enhanced
                 = length (firstn (Z.to_nat limit)
                             (skipn (Z.to_nat (total - (1 - page) * limit))
                                    likes)))
    by (now rewrite <- Hdata, length_map).
  rewrite length_firstn, length_skipn in Hlen.
  split; [nia|]. split; [reflexivity|]. split.
  - destruct (Z.ltb_spec (page * limit) total); [reflexivity | nia].
  - destruct (Z.gtb_spec ((page - 1) * limit) 0); [nia | reflexivity].
Qed.

Lemma getLikes_negative_page_witness :
  exists lst,
    fst (Likes.getLikes Likes.sample_users Likes.sample_posts "undefined"
           (Likes.listing (Some (-1)) (Some 1)) Likes.sample_likes)
    = Likes.Responded
        {| Likes.status := 200; Likes.json := Likes.SuccessList lst |} /\
    map (fun t => fst (fst t)) (Likes.data lst)
    = firstn 1 (skipn 1 Likes.sample_likes).
Proof.
  destruct (Likes.getLikes Likes.sample_users Likes.sample_posts "undefined"
              (Likes.listing (Some (-1)) (Some 1)) Likes.sample_likes)
    as [[r|err|err] likes'] eqn:Hrun; try discriminate.
  destruct (getLikes_negative_page Likes.sample_users Likes.sample_posts
              "undefined" (Likes.listing (Some (-1)) (Some 1))
              Likes.sample_likes r
              ltac:(vm_compute; discriminate) ltac:(vm_compute; discriminate)
              ltac:(vm_compute; discriminate)
              ltac:(split; vm_compute; discriminate)
              ltac:(split; vm_compute; discriminate)
              ltac:(split; vm_compute; discriminate)
              ltac:(now rewrite Hrun))
    as (lst & -> & Hdata & _).
  exists lst. split; [reflexivity | exact Hdata].
Defined.
